(** * MyTinySTL/alloc.h: the segmented free-list pool allocator [mystl::alloc]

    A shallow embedding of the class [alloc] of [MyTinySTL/alloc.h] and the
    properties of it that the design document states.

    - [size_t] values are integers of [Z] in [0, 2^64); every arithmetic
      operation of the source is followed by its wrap-around ([wrap]).
    - Pointers are addresses in [Z]; [nullptr] is [0].
    - The static members [start_free], [end_free], [heap_size] and
      [free_list] are the fields of one record, threaded through every
      member function, together with the [next] words of the blocks and
      the state of the system allocator ([std::malloc] / [std::free]).
    - [M_chunk_alloc] calls itself: the embedding takes the depth it may
      use as [fuel], and the facts below show that two levels are all the
      allocator ever needs. *)

From Stdlib Require Import ZArith Lia List.
From stdpp Require Import base option list gmap.

Local Open Scope Z_scope.

(** ** [size_t] arithmetic *)

Definition size_bits : Z := 64.

Definition wrap (x : Z) : Z := x mod 2 ^ size_bits.

Definition add64 (a b : Z) : Z := wrap (a + b).
Definition sub64 (a b : Z) : Z := wrap (a - b).
Definition mul64 (a b : Z) : Z := wrap (a * b).
Definition shl64 (a k : Z) : Z := wrap (Z.shiftl a k).
Definition shr64 (a k : Z) : Z := Z.shiftr a k.
Definition not64 (a : Z) : Z := wrap (Z.lnot a).

(** ** Constants of the header *)

Definition EAlign128 : Z := 8.
Definition EAlign256 : Z := 16.
Definition EAlign512 : Z := 32.
Definition EAlign1024 : Z := 64.
Definition EAlign2048 : Z := 128.
Definition EAlign4096 : Z := 256.

Definition ESmallObjectBytes : Z := 4096.
Definition EFreeListsNumber : Z := 56.

(** ** The size classifier: [M_align], [M_round_up], [M_freelist_index] *)

Definition M_align (bytes : Z) : Z :=
  if bytes <=? 512 then
    (if bytes <=? 256
     then (if bytes <=? 128 then EAlign128 else EAlign256)
     else EAlign512)
  else
    (if bytes <=? 2048
     then (if bytes <=? 1024 then EAlign1024 else EAlign2048)
     else EAlign4096).

Definition M_round_up (bytes : Z) : Z :=
  Z.land (sub64 (add64 bytes (M_align bytes)) 1)
         (not64 (sub64 (M_align bytes) 1)).

Definition M_freelist_index (bytes : Z) : Z :=
  if bytes <=? 512 then
    (if bytes <=? 256
     then (if bytes <=? 128
           then sub64 (sub64 (add64 bytes EAlign128) 1 / EAlign128) 1
           else add64 15 (sub64 (add64 bytes EAlign256) 129 / EAlign256))
     else add64 23 (sub64 (add64 bytes EAlign512) 257 / EAlign512))
  else
    (if bytes <=? 2048
     then (if bytes <=? 1024
           then add64 31 (sub64 (add64 bytes EAlign1024) 513 / EAlign1024)
           else add64 39 (sub64 (add64 bytes EAlign2048) 1025 / EAlign2048))
     else add64 47 (sub64 (add64 bytes EAlign4096) 2049 / EAlign4096)).

(** The alignment of each band as the design document lists it, with the
    last two bands written out: 128 for 1025-2048 and 256 for 2049-4096. *)
Definition band_align (bytes : Z) : Z :=
  if bytes <=? 128 then 8
  else if bytes <=? 256 then 16
  else if bytes <=? 512 then 32
  else if bytes <=? 1024 then 64
  else if bytes <=? 2048 then 128
  else 256.

(** The rounding formula of the design document over unbounded integers. *)
Definition round_to (align bytes : Z) : Z :=
  Z.land (bytes + align - 1) (Z.lnot (align - 1)).

(** ** The system allocator

    [std::malloc] and [std::free] are the interface of the pool to the
    system.  A result of [0] from [sys_malloc] is a failed allocation. *)

Class SystemAllocator : Type := {
  sys_state : Type;
  sys_malloc : Z -> sys_state -> Z * sys_state;
  sys_free : Z -> sys_state -> sys_state;
}.

(** The calls made to the system allocator, as the program issues them. *)
Inductive sys_call : Type :=
| Malloc (size : Z) (result : Z)
| Free (p : Z).

(** What a member function that returns a pointer hands to its caller:
    the operand of the [return] statement it executed, or nothing when
    control reaches the closing brace of the function. *)
Inductive returned : Type :=
| Value (p : Z)
| NoValue.

Section Pool.
Context `{SA : SystemAllocator}.

(** ** The static members of [alloc], the block memory and the system

    [free_list] is the table of the 56 list heads.  A free block keeps the
    pointer to the next block of its list in its first word: [next_of]
    maps the address of a block to that word, for the blocks whose word
    was written.  [sys] is the state of the system allocator and [calls]
    the calls made to it so far, the latest first; no member function
    reads [calls]. *)

Record world : Type := World {
  start_free : Z;
  end_free : Z;
  heap_size : Z;
  free_list : list Z;
  next_of : gmap Z Z;
  sys : sys_state;
  calls : list sys_call;
}.

Definition set_start_free (v : Z) (w : world) : world :=
  World v (end_free w) (heap_size w) (free_list w) (next_of w) (sys w) (calls w).
Definition set_end_free (v : Z) (w : world) : world :=
  World (start_free w) v (heap_size w) (free_list w) (next_of w) (sys w) (calls w).
Definition set_heap_size (v : Z) (w : world) : world :=
  World (start_free w) (end_free w) v (free_list w) (next_of w) (sys w) (calls w).
Definition set_free_list (v : list Z) (w : world) : world :=
  World (start_free w) (end_free w) (heap_size w) v (next_of w) (sys w) (calls w).
Definition set_next_of (v : gmap Z Z) (w : world) : world :=
  World (start_free w) (end_free w) (heap_size w) (free_list w) v (sys w) (calls w).
Definition set_sys (v : sys_state) (c : sys_call) (w : world) : world :=
  World (start_free w) (end_free w) (heap_size w) (free_list w) (next_of w) v
        (c :: calls w).

(** The static initialisers: null pool bounds, zero heap size and 56 null
    list heads. *)
Definition initial_world (s : sys_state) : world :=
  World 0 0 0 (replicate (Z.to_nat EFreeListsNumber) 0) ∅ s [].

(** ** Outcomes and the monad of member functions

    A member function returns a value in a new world ([Ret]), throws
    [std::bad_alloc] ([Throw]), runs into undefined behaviour ([Undef]) or
    exceeds the depth granted to its recursion ([OutOfFuel]). *)

Inductive outcome (A : Type) : Type :=
| Ret (a : A) (w : world)
| Throw (w : world)
| Undef
| OutOfFuel.
Global Arguments Ret {A} a w.
Global Arguments Throw {A} w.
Global Arguments Undef {A}.
Global Arguments OutOfFuel {A}.

Definition M (A : Type) : Type := world -> outcome A.

Definition ret {A} (a : A) : M A := fun w => Ret a w.

Definition bind {A B} (m : M A) (k : A -> M B) : M B :=
  fun w =>
    match m w with
    | Ret a w' => k a w'
    | Throw w' => Throw w'
    | Undef => Undef
    | OutOfFuel => OutOfFuel
    end.

Definition gets {A} (f : world -> A) : M A := fun w => Ret (f w) w.
Definition modify (f : world -> world) : M unit := fun w => Ret tt (f w).
Definition throw_bad_alloc {A} : M A := fun w => Throw w.
Definition out_of_fuel {A} : M A := fun _ => OutOfFuel.

End Pool.

Global Instance M_ret `{SA : SystemAllocator} : MRet M := @ret SA.
Global Instance M_bind `{SA : SystemAllocator} : MBind M :=
  fun A B k m => bind m k.

Section PoolOperations.
Context `{SA : SystemAllocator}.

(** *** Primitive accesses

    [free_list] has exactly [EFreeListsNumber] entries: an index outside
    the array is undefined behaviour; so are a read or a write through
    [nullptr] and the read of a [next] word that was never written. *)

Definition load_head (idx : Z) : M Z :=
  fun w =>
    if (0 <=? idx) && (idx <? EFreeListsNumber) then
      match free_list w !! Z.to_nat idx with
      | Some p => Ret p w
      | None => Undef
      end
    else Undef.

Definition store_head (idx v : Z) : M unit :=
  fun w =>
    if (0 <=? idx) && (idx <? EFreeListsNumber) then
      match free_list w !! Z.to_nat idx with
      | Some _ => Ret tt (set_free_list (<[Z.to_nat idx := v]> (free_list w)) w)
      | None => Undef
      end
    else Undef.

Definition load_next (p : Z) : M Z :=
  fun w =>
    if p =? 0 then Undef
    else match next_of w !! p with
         | Some q => Ret q w
         | None => Undef
         end.

Definition store_next (p v : Z) : M unit :=
  fun w =>
    if p =? 0 then Undef
    else Ret tt (set_next_of (<[p := v]> (next_of w)) w).

Definition malloc (n : Z) : M Z :=
  fun w =>
    let r := sys_malloc n (sys w) in
    Ret (fst r) (set_sys (snd r) (Malloc n (fst r)) w).

Definition free (p : Z) : M unit :=
  fun w => Ret tt (set_sys (sys_free p (sys w)) (Free p) w).

(** *** [M_chunk_alloc] *)

Definition MAX_CHUNK : Z := 1024 * 1024.

(** Lines 302-305: the size asked from the system. *)
Definition bytes_to_get (need_bytes heap : Z) : Z :=
  let b := add64 (shl64 need_bytes 1) (M_round_up (shr64 heap 4)) in
  if MAX_CHUNK <? b then Z.max need_bytes MAX_CHUNK else b.

(** Lines 293-299: the remainder of the pool goes to a free list. *)
Definition recycle_pool (pool_bytes : Z) : M unit :=
  if 0 <? pool_bytes then
    let idx := M_freelist_index pool_bytes in
    block ← gets start_free;
    head ← load_head idx;
    store_next block head ;;
    store_head idx block
  else mret tt.

(** Lines 319-322: the head of list [idx] leaves the list and becomes the
    pool, [bytes] long. *)
Definition adopt_block (idx block bytes : Z) : M unit :=
  nxt ← load_next block;
  store_head idx nxt ;;
  modify (set_start_free block) ;;
  modify (set_end_free (block + bytes)).

(** Lines 313-327: the loop over [bytes = size; bytes <= 4096;
    bytes += M_align(bytes)], the statements that follow it, and [retry]
    for the recursive call in its body.  [k] bounds the iterations. *)
Fixpoint salvage (k : nat) (retry : M (Z * Z)) (bytes : Z) : M (Z * Z) :=
  match k with
  | O => out_of_fuel
  | S k =>
    if bytes <=? ESmallObjectBytes then
      let idx := M_freelist_index bytes in
      block ← load_head idx;
      if block =? 0 then salvage k retry (add64 bytes (M_align bytes))
      else
        adopt_block idx block bytes ;;
        retry
    else
      modify (set_end_free 0) ;;
      throw_bad_alloc
  end.

(** [bytes] grows by at least 8 in each iteration and the loop ends above
    4096, which bounds the iterations from [size] on. *)
Definition salvage_budget (size : Z) : nat :=
  S (S (Z.to_nat (ESmallObjectBytes - size))).

(** The result is the returned pointer and the final value of the
    reference parameter [nblock].  [fuel] bounds the depth of the
    recursion. *)
Fixpoint M_chunk_alloc (fuel : nat) (size nblock : Z) : M (Z * Z) :=
  match fuel with
  | O => out_of_fuel
  | S fuel =>
    start ← gets start_free;
    end_ ← gets end_free;
    let need_bytes := mul64 size nblock in
    let pool_bytes := wrap (end_ - start) in
    if need_bytes <=? pool_bytes then
      modify (set_start_free (start + need_bytes)) ;;
      mret (start, nblock)
    else if size <=? pool_bytes then
      let nblock := pool_bytes / size in
      let need_bytes := mul64 size nblock in
      modify (set_start_free (start + need_bytes)) ;;
      mret (start, nblock)
    else
      recycle_pool pool_bytes ;;
      heap ← gets heap_size;
      let to_get := bytes_to_get need_bytes heap in
      p ← malloc to_get;
      modify (set_start_free p) ;;
      if p =? 0 then
        salvage (salvage_budget size) (M_chunk_alloc fuel size nblock) size
      else
        modify (set_end_free (p + to_get)) ;;
        modify (set_heap_size (add64 heap to_get)) ;;
        M_chunk_alloc fuel size nblock
  end.

(** *** [M_refill] *)

(** Lines 213-219: the body runs for [i = 1 .. nblock - 1]; [k] counts the
    iterations left and [next_block] is the block to chain. *)
Fixpoint chain_blocks (k : nat) (index n next_block : Z) : M unit :=
  match k with
  | O => mret tt
  | S k =>
    let current := next_block in
    head ← load_head index;
    store_next current head ;;
    store_head index current ;;
    chain_blocks k index n (next_block + n)
  end.

(** The function has a [return] statement in its first case only. *)
Definition M_refill (fuel : nat) (n : Z) : M returned :=
  r ← M_chunk_alloc fuel n 10;
  let c := fst r in
  let nblock := snd r in
  let index := M_freelist_index n in
  if nblock =? 1 then mret (Value c)
  else
    chain_blocks (Z.to_nat (nblock - 1)) index n (c + n) ;;
    mret NoValue.

(** *** The public member functions *)

Definition allocate (fuel : nat) (n : Z) : M returned :=
  if ESmallObjectBytes <? n then
    p ← malloc n;
    mret (Value p)
  else
    my_free_list ← load_head (M_freelist_index n);
    let result := my_free_list in
    if result =? 0 then
      r ← M_refill fuel (M_round_up n);
      mret r
    else
      my_free_list' ← load_next result;
      mret (Value result).

Definition deallocate (p n : Z) : M unit :=
  if ESmallObjectBytes <? n then free p
  else
    let q := p in
    let idx := M_freelist_index n in
    head ← load_head idx;
    store_next q head ;;
    store_head idx q.

Definition reallocate (fuel : nat) (p old_size new_size : Z) : M returned :=
  deallocate p old_size ;;
  allocate fuel new_size.

(** *** Reading a free list *)

(** The blocks reached from [p] through the [next] words, up to the null
    pointer; [None] when the walk does not end within [k] blocks. *)
Fixpoint chain (k : nat) (m : gmap Z Z) (p : Z) {struct k} : option (list Z) :=
  if p =? 0 then Some []
  else match k with
       | O => None
       | S k =>
         match m !! p with
         | Some q => option_map (cons p) (chain k m q)
         | None => None
         end
       end.

Definition blocks_of (k : nat) (w : world) (idx : Z) : option (list Z) :=
  match free_list w !! Z.to_nat idx with
  | Some head => chain k (next_of w) head
  | None => None
  end.

(** *** Predicates on worlds *)

(** What is left of the pool region. *)
Definition pool_bytes (w : world) : Z := wrap (end_free w - start_free w).

(** The table has its 56 entries and [heap_size] is a [size_t]. *)
Definition table_ok (w : world) : Prop :=
  length (free_list w) = Z.to_nat EFreeListsNumber.

Definition heap_ok (w : world) : Prop := 0 <= heap_size w < 2 ^ 64.

Definition sane (w : world) : Prop := table_ok w /\ heap_ok w.

(** The free lists of the classes [from .. to - 1] are empty. *)
Definition empty_classes (fl : list Z) (from to : Z) : Prop :=
  forall i, from <= i < to -> fl !! Z.to_nat i = Some 0.

(** The pool state: the table of list heads, the bounds of the pool
    region and the heap size. *)
Definition pool_state (w : world) : list Z * Z * Z * Z :=
  (free_list w, start_free w, end_free w, heap_size w).

(** [m] keeps [P] on every outcome that has a world. *)
Definition preserves {A} (P : world -> Prop) (m : M A) : Prop :=
  forall w, P w ->
            match m w with
            | Ret _ w' => P w'
            | Throw w' => P w'
            | Undef => True
            | OutOfFuel => True
            end.

(** The world of an outcome, when it has one. *)
Definition world_of {A} (o : outcome A) : option world :=
  match o with
  | Ret _ w => Some w
  | Throw w => Some w
  | Undef => None
  | OutOfFuel => None
  end.

(** The world after block [p] is pushed on list [idx]. *)
Definition pushed (idx p : Z) (w : world) : world :=
  set_free_list (<[Z.to_nat idx := p]> (free_list w))
    (set_next_of
       (<[p := default 0 (free_list w !! Z.to_nat idx)]> (next_of w)) w).

(** What the loop of lines 313-325 finds in the table: the first value of
    [bytes] whose list is stocked, with the head of that list. *)
Inductive scan_result : Type :=
| Stocked (bytes block : Z)
| AllEmpty
| NoEntry
| ScanFuel.

Fixpoint scan (k : nat) (fl : list Z) (bytes : Z) : scan_result :=
  match k with
  | O => ScanFuel
  | S k =>
    if bytes <=? ESmallObjectBytes then
      let idx := M_freelist_index bytes in
      if (0 <=? idx) && (idx <? EFreeListsNumber) then
        match fl !! Z.to_nat idx with
        | Some block =>
            if block =? 0 then scan k fl (add64 bytes (M_align bytes))
            else Stocked bytes block
        | None => NoEntry
        end
      else NoEntry
    else AllEmpty
  end.

(** The number of blocks a pool that holds at least one block serves. *)
Definition served_blocks (size nblock : Z) (w : world) : Z :=
  if mul64 size nblock <=? pool_bytes w then nblock
  else pool_bytes w / size.

(** The world after the pool served [k] blocks of [size] bytes. *)
Definition bumped (size k : Z) (w : world) : world :=
  set_start_free (start_free w + mul64 size k) w.

(** The world after [std::malloc(to_get)] was called in world [w1] and its
    result stored in [start_free]. *)
Definition asked (to_get : Z) (w1 : world) : world :=
  set_start_free (fst (sys_malloc to_get (sys w1)))
    (set_sys (snd (sys_malloc to_get (sys w1)))
             (Malloc to_get (fst (sys_malloc to_get (sys w1)))) w1).

(** The world after the new region of [to_get] bytes was installed. *)
Definition installed (to_get : Z) (w1 : world) : world :=
  set_heap_size (add64 (heap_size w1) to_get)
    (set_end_free (fst (sys_malloc to_get (sys w1)) + to_get)
       (asked to_get w1)).

(** The worlds that calls of the public member functions lead to from
    the static initialisers, also when a call throws. *)
Inductive reachable : world -> Prop :=
| reach_initial s : reachable (initial_world s)
| reach_allocate w fuel n w' :
    reachable w -> world_of (allocate fuel n w) = Some w' -> reachable w'
| reach_deallocate w p n w' :
    reachable w -> world_of (deallocate p n w) = Some w' -> reachable w'
| reach_reallocate w fuel p old_size new_size w' :
    reachable w ->
    world_of (reallocate fuel p old_size new_size w) = Some w' ->
    reachable w'.

(** The blocks [b], [b + n], ... that the loop of [M_refill] chains. *)
Fixpoint carved (k : nat) (n b : Z) : list Z :=
  match k with
  | O => []
  | S k => b :: carved k n (b + n)
  end.

(** [k] iterations suffice for the loop of lines 313-325 from [bytes]. *)
Definition enough (k : nat) (bytes : Z) : Prop :=
  (Z.to_nat (ESmallObjectBytes + 1 - bytes) < k)%nat.

(** *** Predicates for the invariants of the pool *)

(** The pool region has its bounds in order and is shorter than [2^64]
    bytes: [end_free - start_free] does not wrap. *)
Definition pool_ok (w : world) : Prop :=
  0 <= end_free w - start_free w < 2 ^ 64.

(** What one call of [M_chunk_alloc size nblock] in world [w] leaves
    behind, by the way it ends: blocks served from the pool as it was,
    from a new region of the system, or from a block taken back from a
    free list; or [std::bad_alloc]. *)
Definition chunk_post (size nblock : Z) (w : world) (o : outcome (Z * Z))
  : Prop :=
  let to_get := bytes_to_get (mul64 size nblock) (heap_size w) in
  match o with
  | Ret (c, k) w' =>
      1 <= k <= nblock /\ start_free w' = c + size * k /\
      (c = start_free w /\ end_free w' = end_free w /\
       size * k <= pool_bytes w /\
       calls w' = calls w /\ heap_size w' = heap_size w
       \/
       c <> 0 /\ k = nblock /\ end_free w' = c + to_get /\
       calls w' = Malloc to_get c :: calls w /\
       heap_size w' = add64 (heap_size w) to_get
       \/
       c <> 0 /\
       (exists bytes,
          size * k <= bytes <= ESmallObjectBytes /\
          end_free w' = c + bytes) /\
       calls w' = Malloc to_get 0 :: calls w /\
       heap_size w' = heap_size w)
  | Throw w' =>
      start_free w' = 0 /\ end_free w' = 0 /\
      heap_size w' = heap_size w /\
      calls w' = Malloc to_get 0 :: calls w
  | Undef => True
  | OutOfFuel => True
  end.

(** [p] is null or a block whose [next] word was written. *)
Definition linked (m : gmap Z Z) (p : Z) : Prop := p = 0 \/ is_Some (m !! p).

(** Every list head and every [next] word is a non-negative address that
    is null or leads to a written [next] word. *)
Definition lists_ok (w : world) : Prop :=
  table_ok w /\
  Forall (fun p => 0 <= p /\ linked (next_of w) p) (free_list w) /\
  map_Forall (fun _ q => 0 <= q /\ linked (next_of w) q) (next_of w).

(** The pool region is [start_free, end_free), shorter than [2^64] bytes,
    and a null [start_free] comes with an empty pool. *)
Definition region_ok (w : world) : Prop :=
  0 <= start_free w /\
  0 <= end_free w - start_free w < 2 ^ 64 /\
  (start_free w = 0 -> end_free w = 0).

Definition safe (w : world) : Prop := lists_ok w /\ region_ok w /\ heap_ok w.

(** [std::malloc] returns the null pointer or an address above it. *)
Definition honest_system : Prop :=
  forall n s, 0 <= fst (sys_malloc n s).

End PoolOperations.

(** ** A system allocator for the examples

    An arena [next, limit): a request is served from the front while it
    fits and fails (null) otherwise; [free] does nothing. *)
Definition arena_malloc (n : Z) (s : Z * Z) : Z * (Z * Z) :=
  if n <=? snd s - fst s then (fst s, (fst s + n, snd s)) else (0, s).

Global Instance arena : SystemAllocator := {|
  sys_state := Z * Z;
  sys_malloc := arena_malloc;
  sys_free := fun _ s => s;
|}.

(** Worlds for the examples: a system with 1 MiB to give from address
    65536, a system with nothing to give, and the latter after block 4096
    was pushed on the list of class 0, or block 8192 on the list of class
    30. *)
Definition fresh_world : world := initial_world (65536, 65536 + 1048576).
Definition starved_world : world := initial_world (65536, 65536).
Definition stocked_world : world := pushed 0 4096 starved_world.
Definition salvage_world : world := pushed 30 8192 starved_world.

(** The arena over natural bounds: no address it returns is negative. *)
Definition natural_arena : SystemAllocator := {|
  sys_state := N * N;
  sys_malloc := fun n s =>
    let r := arena_malloc n (Z.of_N (fst s), Z.of_N (snd s)) in
    (fst r, (Z.to_N (fst (snd r)), Z.to_N (snd (snd r))));
  sys_free := fun _ s => s;
|}.

(** A pool that holds one block of 208 bytes, over the natural arena with
    nothing to give. *)
Definition natural_block_world : @world natural_arena :=
  @World natural_arena 4096 (4096 + 208) 416 (replicate 56 0) ∅
         (65536%N, 65536%N) [].

(** Pools that hold one block of 208 bytes and ten blocks of 416 bytes,
    over a system with nothing to give. *)
Definition one_block_world : world :=
  World 4096 (4096 + 208) 416 (replicate 56 0) ∅ (65536, 65536) [].
Definition ten_block_world : world :=
  World 4096 (4096 + 4160) 4160 (replicate 56 0) ∅ (65536, 65536) [].

Definition starved_remainder_world : world :=
  World 4096 (4096 + 200) 4160 (replicate 56 0) ∅ (65536, 65536) [].

Global Arguments wrap : simpl never.
Global Arguments add64 : simpl never.
Global Arguments sub64 : simpl never.
Global Arguments mul64 : simpl never.
Global Arguments shl64 : simpl never.
Global Arguments shr64 : simpl never.
Global Arguments not64 : simpl never.
Global Arguments M_align : simpl never.
Global Arguments M_round_up : simpl never.
Global Arguments M_freelist_index : simpl never.
Global Arguments bytes_to_get : simpl never.
Global Arguments salvage_budget : simpl never.

(** ** Facts about [size_t] arithmetic *)

Lemma wrap_small x : 0 <= x < 2 ^ 64 -> wrap x = x.
Proof. intros H. unfold wrap, size_bits. apply Z.mod_small. exact H. Qed.

Lemma wrap_range x : 0 <= wrap x < 2 ^ 64.
Proof. unfold wrap, size_bits. apply Z.mod_pos_bound. lia. Qed.

Lemma wrap_land_ones x : wrap x = Z.land x (Z.ones 64).
Proof. unfold wrap, size_bits. rewrite Z.land_ones by lia. reflexivity. Qed.

(** Masking with the complement of [2^k - 1] clears the low [k] bits: the
    64-bit mask of the source and the unbounded one agree on a [size_t]. *)
Lemma land_not64_mask x k :
  0 <= k -> 0 <= x < 2 ^ 64 ->
  Z.land x (not64 (Z.ones k)) = Z.land x (Z.lnot (Z.ones k)).
Proof.
  intros Hk Hx. unfold not64. rewrite wrap_land_ones.
  rewrite (Z.land_comm (Z.lnot _)), Z.land_assoc.
  rewrite <- wrap_land_ones, (wrap_small x Hx). reflexivity.
Qed.

Lemma land_lnot_ones x k :
  0 <= k -> Z.land x (Z.lnot (Z.ones k)) = 2 ^ k * (x / 2 ^ k).
Proof.
  intros Hk. rewrite <- Z.ldiff_land.
  rewrite Z.ldiff_ones_r by exact Hk.
  rewrite Z.shiftr_div_pow2, Z.shiftl_mul_pow2 by exact Hk. lia.
Qed.

(** ** Facts about the size classifier *)

Ltac unfold_aligns :=
  unfold EAlign128, EAlign256, EAlign512, EAlign1024, EAlign2048, EAlign4096 in *.

Lemma M_align_pow2 bytes : { k | 3 <= k <= 8 /\ M_align bytes = 2 ^ k }.
Proof.
  unfold M_align; unfold_aligns.
  repeat case_match;
    [exists 3 | exists 4 | exists 5 | exists 6 | exists 7 | exists 8];
    split; (lia || reflexivity).
Qed.

Lemma M_align_band bytes : M_align bytes = band_align bytes.
Proof.
  unfold M_align, band_align; unfold_aligns. repeat case_match; lia.
Qed.

Lemma M_align_range bytes : 8 <= M_align bytes <= 256.
Proof. unfold M_align; unfold_aligns. repeat case_match; lia. Qed.

(** [M_round_up] is the least multiple of the alignment that is not below
    [bytes]; none of its [size_t] operations wraps below [2^63]. *)
Lemma M_round_up_div bytes :
  0 <= bytes < 2 ^ 63 ->
  M_round_up bytes =
    M_align bytes * ((bytes + M_align bytes - 1) / M_align bytes).
Proof.
  intros Hb. destruct (M_align_pow2 bytes) as [k [Hk Ha]].
  pose proof (M_align_range bytes) as Hp.
  unfold M_round_up. rewrite Ha in *.
  unfold add64, sub64.
  rewrite (wrap_small (bytes + 2 ^ k)) by lia.
  rewrite (wrap_small (bytes + 2 ^ k - 1)) by lia.
  rewrite (wrap_small (2 ^ k - 1)) by lia.
  replace (2 ^ k - 1) with (Z.ones k) by (rewrite Z.ones_equiv; lia).
  rewrite land_not64_mask by lia.
  rewrite land_lnot_ones by lia.
  reflexivity.
Qed.

Lemma round_to_div k bytes :
  0 <= k -> round_to (2 ^ k) bytes = 2 ^ k * ((bytes + 2 ^ k - 1) / 2 ^ k).
Proof.
  intros Hk. unfold round_to.
  replace (2 ^ k - 1) with (Z.ones k) by (rewrite Z.ones_equiv; lia).
  apply land_lnot_ones. exact Hk.
Qed.

Lemma M_round_up_bounds bytes :
  0 <= bytes < 2 ^ 63 ->
  bytes <= M_round_up bytes < bytes + M_align bytes.
Proof.
  intros Hb. rewrite M_round_up_div by exact Hb.
  pose proof (M_align_range bytes) as Hp.
  Z.div_mod_to_equations. nia.
Qed.

Lemma M_round_up_plain bytes :
  1 <= bytes <= 4096 ->
  M_round_up bytes =
    if bytes <=? 128 then 8 * ((bytes + 7) / 8)
    else if bytes <=? 256 then 16 * ((bytes + 15) / 16)
    else if bytes <=? 512 then 32 * ((bytes + 31) / 32)
    else if bytes <=? 1024 then 64 * ((bytes + 63) / 64)
    else if bytes <=? 2048 then 128 * ((bytes + 127) / 128)
    else 256 * ((bytes + 255) / 256).
Proof.
  intros Hb. rewrite M_round_up_div by lia.
  unfold M_align; unfold_aligns.
  repeat case_match; try lia; do 2 f_equal; lia.
Qed.

Lemma M_freelist_index_plain bytes :
  1 <= bytes <= 4096 ->
  M_freelist_index bytes =
    if bytes <=? 128 then (bytes + 7) / 8 - 1
    else if bytes <=? 256 then 15 + (bytes - 113) / 16
    else if bytes <=? 512 then 23 + (bytes - 225) / 32
    else if bytes <=? 1024 then 31 + (bytes - 449) / 64
    else if bytes <=? 2048 then 39 + (bytes - 897) / 128
    else 47 + (bytes - 1793) / 256.
Proof.
  intros Hb. unfold M_freelist_index, add64, sub64, wrap, size_bits.
  unfold_aligns.
  repeat case_match; try lia; Z.div_mod_to_equations; lia.
Qed.

Ltac plain_classes :=
  repeat match goal with
         | |- context [M_freelist_index ?x] =>
             rewrite (M_freelist_index_plain x) by lia
         | |- context [M_round_up ?x] =>
             rewrite (M_round_up_plain x) by lia
         end.

Lemma M_round_up_small bytes :
  1 <= bytes <= 4096 -> bytes <= M_round_up bytes <= 4096.
Proof.
  intros Hb. rewrite M_round_up_plain by lia.
  repeat case_match; Z.div_mod_to_equations; lia.
Qed.

Lemma M_freelist_index_range bytes :
  1 <= bytes <= 4096 -> 0 <= M_freelist_index bytes < EFreeListsNumber.
Proof.
  intros Hb. unfold EFreeListsNumber. rewrite M_freelist_index_plain by lia.
  repeat case_match; Z.div_mod_to_equations; lia.
Qed.

Lemma M_freelist_index_mono a b :
  1 <= a -> a <= b -> b <= 4096 -> M_freelist_index a <= M_freelist_index b.
Proof.
  intros Ha Hab Hb. plain_classes.
  repeat case_match; try lia; Z.div_mod_to_equations; lia.
Qed.

Lemma M_round_up_mono a b :
  1 <= a -> a <= b -> b <= 4096 -> M_round_up a <= M_round_up b.
Proof.
  intros Ha Hab Hb. plain_classes.
  repeat case_match; try lia; Z.div_mod_to_equations; lia.
Qed.

Lemma M_round_up_same_band bytes :
  1 <= bytes <= 4096 -> M_align (M_round_up bytes) = M_align bytes.
Proof.
  intros Hb. pose proof (M_round_up_small bytes Hb) as Hr.
  revert Hr. rewrite M_round_up_plain by lia.
  unfold M_align; unfold_aligns.
  repeat case_match; try lia; intros; Z.div_mod_to_equations; lia.
Qed.

Lemma M_round_up_same_class bytes :
  1 <= bytes <= 4096 ->
  M_freelist_index (M_round_up bytes) = M_freelist_index bytes.
Proof.
  intros Hb. pose proof (M_round_up_small bytes Hb) as Hr.
  rewrite (M_freelist_index_plain (M_round_up bytes)) by lia.
  rewrite (M_freelist_index_plain bytes) by lia.
  revert Hr. rewrite M_round_up_plain by lia.
  repeat case_match; try lia; intros; Z.div_mod_to_equations; lia.
Qed.

Lemma M_round_up_idem bytes :
  1 <= bytes <= 4096 -> M_round_up (M_round_up bytes) = M_round_up bytes.
Proof.
  intros Hb. pose proof (M_round_up_small bytes Hb) as Hr.
  rewrite (M_round_up_div (M_round_up bytes)) by lia.
  rewrite M_round_up_same_band by lia.
  rewrite (M_round_up_div bytes) by lia.
  pose proof (M_align_range bytes).
  set (a := M_align bytes) in *. set (q := (bytes + a - 1) / a).
  f_equal. replace (a * q + a - 1) with (a - 1 + q * a) by lia.
  rewrite Z.div_add by lia. rewrite Z.div_small by lia. lia.
Qed.

(** The next value of the salvage loop lies in the next class. *)
Lemma M_freelist_index_step bytes :
  1 <= bytes <= 4096 ->
  bytes + M_align bytes <= 4096 ->
  M_freelist_index (bytes + M_align bytes) = M_freelist_index bytes + 1.
Proof.
  intros Hb. rewrite M_align_band. unfold band_align.
  repeat case_match; try lia; intros Hn; plain_classes;
    repeat case_match; try lia; Z.div_mod_to_equations; lia.
Qed.

Lemma M_freelist_index_last bytes :
  1 <= bytes <= 4096 ->
  4096 < bytes + M_align bytes ->
  M_freelist_index bytes = 55.
Proof.
  intros Hb. rewrite M_align_band. unfold band_align.
  repeat case_match; try lia; intros Hn; plain_classes;
    repeat case_match; try lia; Z.div_mod_to_equations; lia.
Qed.

(** C5, as amended: for every [bytes] in [1..=4096], [M_round_up bytes] is
    [(bytes + align - 1) & ~(align - 1)] where [align] is the alignment of
    the band of [bytes]: 8 up to 128, 16 for 129-256, 32 for 257-512, 64
    for 513-1024, 128 for 1025-2048 and 256 for 2049-4096.  No [size_t]
    operation of the source wraps on this range, and the result is the
    least multiple of [align] that is not below [bytes]. *)
Theorem M_round_up_band_formula bytes :
  1 <= bytes <= 4096 ->
  M_align bytes = band_align bytes /\
  M_round_up bytes = round_to (band_align bytes) bytes /\
  M_round_up bytes =
    band_align bytes * ((bytes + band_align bytes - 1) / band_align bytes).
Proof.
  intros Hb. split; [apply M_align_band|].
  rewrite <- M_align_band. split; [|apply M_round_up_div; lia].
  destruct (M_align_pow2 bytes) as [k [Hk Ha]]. rewrite Ha at 1.
  rewrite round_to_div by lia. rewrite <- Ha. apply M_round_up_div. lia.
Qed.

Lemma M_round_up_band_formula_witness :
  M_align 200 = band_align 200 /\
  M_round_up 200 = round_to (band_align 200) 200 /\
  M_round_up 200 =
    band_align 200 * ((200 + band_align 200 - 1) / band_align 200).
Proof. apply (M_round_up_band_formula 200). lia. Defined.

(** C5, as stated, fails at 1025 bytes: the alignment of 1025-2048 is 128,
    not 256, so [M_round_up 1025] is 1152 where an alignment of 256 gives
    1280. *)
Lemma M_round_up_1025_not_256_aligned :
  1025 <= 1025 <= 4096 /\
  M_align 1025 = 128 /\
  M_round_up 1025 = 1152 /\
  round_to 256 1025 = 1280 /\
  M_round_up 1025 <> round_to 256 1025.
Proof. repeat split; try lia; try reflexivity. vm_compute. discriminate. Qed.

(** C6, as amended: on [1..=4096] the class index is one of [0..55] and
    is monotone: a larger request never maps to a smaller class than a
    smaller request (requests between two class boundaries share a class),
    the block sizes are monotone too, every block size is a multiple of
    the alignment of its band, lies in the band of the request and maps
    to the class of the request. *)
Theorem M_freelist_index_monotone a b :
  1 <= a -> a <= b -> b <= 4096 ->
  0 <= M_freelist_index a /\
  M_freelist_index a <= M_freelist_index b /\
  M_freelist_index b < EFreeListsNumber /\
  M_round_up a <= M_round_up b /\
  M_round_up b mod M_align b = 0 /\
  M_align (M_round_up b) = M_align b /\
  M_freelist_index (M_round_up b) = M_freelist_index b.
Proof.
  intros Ha Hab Hb.
  pose proof (M_freelist_index_range a) as Hra.
  pose proof (M_freelist_index_range b) as Hrb.
  repeat split; try lia.
  - apply M_freelist_index_mono; lia.
  - apply M_round_up_mono; lia.
  - rewrite M_round_up_div by lia. pose proof (M_align_range b).
    rewrite Z.mul_comm. apply Z.mod_mul. lia.
  - apply M_round_up_same_band; lia.
  - apply M_round_up_same_class; lia.
Qed.

Lemma M_freelist_index_monotone_witness :
  0 <= M_freelist_index 100 /\
  M_freelist_index 100 <= M_freelist_index 3000 /\
  M_freelist_index 3000 < EFreeListsNumber /\
  M_round_up 100 <= M_round_up 3000 /\
  M_round_up 3000 mod M_align 3000 = 0 /\
  M_align (M_round_up 3000) = M_align 3000 /\
  M_freelist_index (M_round_up 3000) = M_freelist_index 3000.
Proof. apply (M_freelist_index_monotone 100 3000); lia. Defined.

(** C6, as stated, fails for the requests 1 and 2 of the first band: the
    larger one maps to the same class, of the same block size. *)
Lemma M_freelist_index_1_2_same_class :
  1 < 2 /\ 2 <= 128 /\
  M_align 1 = M_align 2 /\
  M_freelist_index 2 = M_freelist_index 1 /\
  M_round_up 2 = M_round_up 1 /\
  ~ (M_freelist_index 1 < M_freelist_index 2).
Proof. repeat split; try lia; try reflexivity. vm_compute. discriminate. Qed.

(** ** Facts about the pool *)

Section PoolFacts.
Context `{SA : SystemAllocator}.

Ltac unmonad := unfold mbind, M_bind, mret, M_ret in *.

Lemma bind_Ret {A B} (m : M A) (k : A -> M B) w a w' :
  m w = Ret a w' -> (m ≫= k) w = k a w'.
Proof. intros H. unmonad. unfold bind. rewrite H. reflexivity. Qed.

Lemma allocate_large fuel n w :
  ESmallObjectBytes < n ->
  allocate fuel n w =
    Ret (Value (fst (sys_malloc n (sys w))))
        (set_sys (snd (sys_malloc n (sys w)))
                 (Malloc n (fst (sys_malloc n (sys w)))) w).
Proof.
  intros Hn. unfold allocate.
  apply Z.ltb_lt in Hn. rewrite Hn. reflexivity.
Qed.


Lemma in_table_true idx :
  0 <= idx < EFreeListsNumber ->
  (0 <=? idx) && (idx <? EFreeListsNumber) = true.
Proof.
  intros H. apply andb_true_iff. split; [apply Z.leb_le | apply Z.ltb_lt]; lia.
Qed.

Lemma table_lookup idx w :
  0 <= idx < EFreeListsNumber -> table_ok w ->
  is_Some (free_list w !! Z.to_nat idx).
Proof.
  intros Hi Ht. apply lookup_lt_is_Some. unfold table_ok in Ht.
  unfold EFreeListsNumber in *. lia.
Qed.

Lemma load_head_Ret idx w p :
  free_list w !! Z.to_nat idx = Some p -> 0 <= idx < EFreeListsNumber ->
  load_head idx w = Ret p w.
Proof.
  intros E Hi. unfold load_head. rewrite in_table_true by exact Hi.
  rewrite E. reflexivity.
Qed.

Lemma load_head_inv idx w p w' :
  load_head idx w = Ret p w' ->
  w' = w /\ free_list w !! Z.to_nat idx = Some p /\
  0 <= idx < EFreeListsNumber.
Proof.
  unfold load_head. destruct ((0 <=? idx) && (idx <? EFreeListsNumber)) eqn:E;
    [|discriminate].
  apply andb_true_iff in E. destruct E as [E1 E2].
  apply Z.leb_le in E1. apply Z.ltb_lt in E2.
  destruct (free_list w !! Z.to_nat idx); [|discriminate].
  intros H. injection H as -> ->. auto.
Qed.

Lemma store_head_Ret idx v w :
  0 <= idx < EFreeListsNumber -> table_ok w ->
  store_head idx v w =
    Ret tt (set_free_list (<[Z.to_nat idx := v]> (free_list w)) w).
Proof.
  intros Hi Ht. unfold store_head. rewrite in_table_true by exact Hi.
  destruct (table_lookup idx w Hi Ht) as [x ->]. reflexivity.
Qed.

Lemma load_next_Ret p q w :
  p <> 0 -> next_of w !! p = Some q -> load_next p w = Ret q w.
Proof.
  intros Hp E. unfold load_next.
  destruct (Z.eqb_spec p 0) as [|_]; [contradiction|]. rewrite E. reflexivity.
Qed.

Lemma store_next_Ret p v w :
  p <> 0 ->
  store_next p v w = Ret tt (set_next_of (<[p := v]> (next_of w)) w).
Proof.
  intros Hp. unfold store_next.
  destruct (Z.eqb_spec p 0) as [|_]; [contradiction|]. reflexivity.
Qed.

(** *** The fast path of [allocate] and [deallocate] *)

Lemma small_true n : n <= ESmallObjectBytes -> (ESmallObjectBytes <? n) = false.
Proof. intros H. apply Z.ltb_ge. exact H. Qed.

(** A stocked list serves its head and keeps it: the world is unchanged. *)
Lemma allocate_stocked fuel n w p q :
  1 <= n <= ESmallObjectBytes ->
  free_list w !! Z.to_nat (M_freelist_index n) = Some p ->
  p <> 0 ->
  next_of w !! p = Some q ->
  allocate fuel n w = Ret (Value p) w.
Proof.
  intros Hn Hh Hp Hq. unfold allocate. rewrite small_true by lia.
  erewrite bind_Ret;
    [|apply load_head_Ret; [exact Hh | apply M_freelist_index_range; exact Hn]].
  destruct (Z.eqb_spec p 0) as [|_]; [contradiction|].
  erewrite bind_Ret; [|apply load_next_Ret; eassumption]. reflexivity.
Qed.

Lemma deallocate_small p n w :
  1 <= n <= ESmallObjectBytes -> p <> 0 -> table_ok w ->
  deallocate p n w = Ret tt (pushed (M_freelist_index n) p w).
Proof.
  intros Hn Hp Ht. unfold deallocate. rewrite small_true by lia.
  pose proof (M_freelist_index_range n Hn) as Hi.
  destruct (table_lookup _ w Hi Ht) as [h Hh].
  erewrite bind_Ret; [|apply load_head_Ret; eassumption].
  erewrite bind_Ret; [|apply store_next_Ret; exact Hp].
  rewrite store_head_Ret; [|exact Hi|exact Ht].
  unfold pushed. rewrite Hh. reflexivity.
Qed.


(** *** [sane] is an invariant of the member functions *)

Lemma sane_frame w w' :
  free_list w' = free_list w -> heap_size w' = heap_size w ->
  sane w -> sane w'.
Proof.
  unfold sane, table_ok, heap_ok. intros -> ->. auto.
Qed.

Lemma preserves_bind {A B} P (m : M A) (k : A -> M B) :
  preserves P m -> (forall a, preserves P (k a)) -> preserves P (m ≫= k).
Proof.
  intros Hm Hk w Hw. unmonad. unfold bind.
  specialize (Hm w Hw). destruct (m w); auto. apply Hk. exact Hm.
Qed.

Lemma preserves_mret {A} P (a : A) : preserves P (mret a).
Proof. intros w Hw. exact Hw. Qed.

Lemma preserves_gets {A} P (f : world -> A) : preserves P (gets f).
Proof. intros w Hw. exact Hw. Qed.

Lemma preserves_throw {A} P : preserves P (@throw_bad_alloc _ A).
Proof. intros w Hw. exact Hw. Qed.

Lemma preserves_out_of_fuel {A} P : preserves P (@out_of_fuel _ A).
Proof. intros w Hw. exact I. Qed.

Lemma preserves_modify P f :
  (forall w, P w -> P (f w)) -> preserves P (modify f).
Proof. intros Hf w Hw. apply Hf. exact Hw. Qed.

Lemma sane_load_head idx : preserves sane (load_head idx).
Proof.
  intros w Hw. unfold load_head. repeat case_match; simplify_eq; simpl; auto.
Qed.

Lemma sane_store_head idx v : preserves sane (store_head idx v).
Proof.
  intros w [Ht Hh]. unfold store_head. repeat case_match; simplify_eq; simpl; auto.
  split; [|exact Hh]. unfold table_ok in *. simpl.
  rewrite length_insert. exact Ht.
Qed.

Lemma sane_load_next p : preserves sane (load_next p).
Proof. intros w Hw. unfold load_next. repeat case_match; simplify_eq; simpl; auto. Qed.

Lemma sane_store_next p v : preserves sane (store_next p v).
Proof.
  intros w Hw. unfold store_next. repeat case_match; simplify_eq; simpl; auto.
Qed.

Lemma sane_malloc n : preserves sane (malloc n).
Proof. intros w Hw. revert Hw. apply sane_frame; reflexivity. Qed.

Lemma sane_free p : preserves sane (free p).
Proof. intros w Hw. revert Hw. apply sane_frame; reflexivity. Qed.

Lemma sane_set_start_free v : preserves sane (modify (set_start_free v)).
Proof. apply preserves_modify. intros w. apply sane_frame; reflexivity. Qed.

Lemma sane_set_end_free v : preserves sane (modify (set_end_free v)).
Proof. apply preserves_modify. intros w. apply sane_frame; reflexivity. Qed.

Lemma sane_set_heap_size a b :
  preserves sane (modify (set_heap_size (add64 a b))).
Proof.
  apply preserves_modify. intros w [Ht _]. split; [exact Ht|].
  unfold heap_ok. simpl. apply wrap_range.
Qed.

Ltac sane_step :=
  first [ simple apply preserves_bind; [|intros ?]
        | simple apply preserves_mret | simple apply preserves_gets
        | simple apply preserves_throw | simple apply preserves_out_of_fuel
        | simple apply sane_load_head | simple apply sane_store_head
        | simple apply sane_load_next | simple apply sane_store_next
        | simple apply sane_malloc | simple apply sane_free
        | simple apply sane_set_start_free | simple apply sane_set_end_free
        | simple apply sane_set_heap_size ].

Lemma sane_recycle_pool pb : preserves sane (recycle_pool pb).
Proof. unfold recycle_pool. case_match; repeat sane_step. Qed.

Lemma sane_adopt_block idx block bytes :
  preserves sane (adopt_block idx block bytes).
Proof. unfold adopt_block. repeat sane_step. Qed.

Lemma sane_salvage k retry bytes :
  preserves sane retry -> preserves sane (salvage k retry bytes).
Proof.
  intros Hr. revert bytes. induction k as [|k IH]; intros bytes; simpl.
  - apply preserves_out_of_fuel.
  - case_match; repeat sane_step.
    case_match; [apply IH|]. repeat sane_step.
    + apply sane_adopt_block.
    + exact Hr.
Qed.

Lemma M_chunk_alloc_S fuel size nblock :
  M_chunk_alloc (S fuel) size nblock =
    (start ← gets start_free;
     end_ ← gets end_free;
     let need_bytes := mul64 size nblock in
     let pool_bytes := wrap (end_ - start) in
     if need_bytes <=? pool_bytes then
       modify (set_start_free (start + need_bytes)) ;;
       mret (start, nblock)
     else if size <=? pool_bytes then
       let nblock := pool_bytes / size in
       let need_bytes := mul64 size nblock in
       modify (set_start_free (start + need_bytes)) ;;
       mret (start, nblock)
     else
       recycle_pool pool_bytes ;;
       heap ← gets heap_size;
       let to_get := bytes_to_get need_bytes heap in
       p ← malloc to_get;
       modify (set_start_free p) ;;
       if p =? 0 then
         salvage (salvage_budget size) (M_chunk_alloc fuel size nblock) size
       else
         modify (set_end_free (p + to_get)) ;;
         modify (set_heap_size (add64 heap to_get)) ;;
         M_chunk_alloc fuel size nblock).
Proof. reflexivity. Qed.

Lemma sane_M_chunk_alloc fuel size nblock :
  preserves sane (M_chunk_alloc fuel size nblock).
Proof.
  induction fuel as [|fuel IH]; [apply preserves_out_of_fuel|].
  rewrite M_chunk_alloc_S.
  repeat sane_step. cbv zeta. case_match; [repeat sane_step|].
  case_match; [repeat sane_step|].
  sane_step; [apply sane_recycle_pool|]. repeat sane_step.
  case_match; [apply sane_salvage; exact IH|].
  repeat sane_step. exact IH.
Qed.

Lemma sane_chain_blocks k index n next_block :
  preserves sane (chain_blocks k index n next_block).
Proof.
  revert next_block. induction k as [|k IH]; intros next_block; simpl.
  - apply preserves_mret.
  - repeat sane_step. apply IH.
Qed.

Lemma sane_M_refill fuel n : preserves sane (M_refill fuel n).
Proof.
  unfold M_refill. sane_step; [apply sane_M_chunk_alloc|].
  case_match; repeat sane_step. apply sane_chain_blocks.
Qed.

Lemma sane_allocate fuel n : preserves sane (allocate fuel n).
Proof.
  unfold allocate. case_match; repeat sane_step.
  case_match; repeat sane_step. apply sane_M_refill.
Qed.

Lemma sane_deallocate p n : preserves sane (deallocate p n).
Proof. unfold deallocate. case_match; repeat sane_step. Qed.

Lemma sane_reallocate fuel p old_size new_size :
  preserves sane (reallocate fuel p old_size new_size).
Proof.
  unfold reallocate. sane_step; [apply sane_deallocate | apply sane_allocate].
Qed.

Lemma sane_initial s : sane (initial_world s).
Proof. split; [reflexivity | unfold heap_ok; simpl; lia]. Qed.

Lemma preserves_world_of {A} P (m : M A) w w' :
  preserves P m -> P w -> world_of (m w) = Some w' -> P w'.
Proof.
  intros Hm Hw. specialize (Hm w Hw).
  destruct (m w); simpl; intros H; simplify_eq; exact Hm.
Qed.

(** Every world the allocator can be in is [sane]. *)
Lemma reachable_sane w : reachable w -> sane w.
Proof.
  induction 1 as [s | w fuel n w' _ IH H | w p n w' _ IH H
                 | w fuel p old_size new_size w' _ IH H].
  - apply sane_initial.
  - exact (preserves_world_of sane _ w w' (sane_allocate fuel n) IH H).
  - exact (preserves_world_of sane _ w w' (sane_deallocate p n) IH H).
  - exact (preserves_world_of sane _ w w'
             (sane_reallocate fuel p old_size new_size) IH H).
Qed.


(** *** The cases of [M_chunk_alloc] *)

Lemma salvage_scan k retry bytes w :
  salvage k retry bytes w =
    match scan k (free_list w) bytes with
    | Stocked bytes' block =>
        (adopt_block (M_freelist_index bytes') block bytes' ;; retry) w
    | AllEmpty => Throw (set_end_free 0 w)
    | NoEntry => Undef
    | ScanFuel => OutOfFuel
    end.
Proof.
  revert bytes. induction k as [|k IH]; intros bytes; [reflexivity|].
  simpl. destruct (bytes <=? ESmallObjectBytes); [|reflexivity].
  unmonad. unfold bind at 1. unfold load_head.
  destruct ((0 <=? M_freelist_index bytes) &&
            (M_freelist_index bytes <? EFreeListsNumber)); [|reflexivity].
  destruct (free_list w !! Z.to_nat (M_freelist_index bytes)) as [block|];
    [|reflexivity].
  destruct (block =? 0); [apply IH | reflexivity].
Qed.

Lemma M_chunk_alloc_fits fuel size nblock w :
  mul64 size nblock <= pool_bytes w ->
  M_chunk_alloc (S fuel) size nblock w =
    Ret (start_free w, nblock)
        (set_start_free (start_free w + mul64 size nblock) w).
Proof.
  intros H. rewrite M_chunk_alloc_S. unmonad. unfold bind, gets. simpl.
  apply Z.leb_le in H. unfold pool_bytes in H. rewrite H. reflexivity.
Qed.

Lemma M_chunk_alloc_partial fuel size nblock w :
  pool_bytes w < mul64 size nblock -> size <= pool_bytes w ->
  M_chunk_alloc (S fuel) size nblock w =
    Ret (start_free w, pool_bytes w / size)
        (set_start_free
           (start_free w + mul64 size (pool_bytes w / size)) w).
Proof.
  intros H1 H2. rewrite M_chunk_alloc_S. unmonad. unfold bind, gets. simpl.
  apply Z.leb_gt in H1. apply Z.leb_le in H2. unfold pool_bytes in *.
  rewrite H1, H2. reflexivity.
Qed.

Lemma M_chunk_alloc_grow fuel size nblock w :
  pool_bytes w < mul64 size nblock -> pool_bytes w < size ->
  M_chunk_alloc (S fuel) size nblock w =
    match recycle_pool (pool_bytes w) w with
    | Ret _ w1 =>
        let to_get := bytes_to_get (mul64 size nblock) (heap_size w1) in
        let r := sys_malloc to_get (sys w1) in
        let w2 := set_start_free (fst r)
                    (set_sys (snd r) (Malloc to_get (fst r)) w1) in
        if fst r =? 0 then
          match scan (salvage_budget size) (free_list w2) size with
          | Stocked bytes block =>
              match adopt_block (M_freelist_index bytes) block bytes w2 with
              | Ret _ w3 => M_chunk_alloc fuel size nblock w3
              | Throw w3 => Throw w3
              | Undef => Undef
              | OutOfFuel => OutOfFuel
              end
          | AllEmpty => Throw (set_end_free 0 w2)
          | NoEntry => Undef
          | ScanFuel => OutOfFuel
          end
        else
          M_chunk_alloc fuel size nblock
            (set_heap_size (add64 (heap_size w1) to_get)
               (set_end_free (fst r + to_get) w2))
    | Throw w1 => Throw w1
    | Undef => Undef
    | OutOfFuel => OutOfFuel
    end.
Proof.
  intros H1 H2. rewrite M_chunk_alloc_S. unmonad. unfold bind at 1 2. unfold gets at 1 2.
  cbv zeta. apply Z.leb_gt in H1. apply Z.leb_gt in H2. unfold pool_bytes in *.
  rewrite H1, H2. unfold bind at 1.
  destruct (recycle_pool _ w) as [[] w1| | |]; try reflexivity.
  unfold bind at 1. unfold gets at 1. unfold bind at 1. unfold malloc at 1.
  unfold bind at 1. unfold modify at 1.
  destruct (fst _ =? 0); [|reflexivity].
  rewrite salvage_scan. reflexivity.
Qed.


(** *** The scan of the table *)

Lemma next_bytes bytes :
  0 <= bytes <= ESmallObjectBytes ->
  add64 bytes (M_align bytes) = bytes + M_align bytes.
Proof.
  intros Hb. pose proof (M_align_range bytes). unfold ESmallObjectBytes in Hb.
  unfold add64. apply wrap_small. lia.
Qed.

Lemma enough_next k bytes :
  0 <= bytes <= ESmallObjectBytes ->
  enough (S k) bytes -> enough k (bytes + M_align bytes).
Proof.
  unfold enough, ESmallObjectBytes. intros Hb Hk.
  pose proof (M_align_range bytes). lia.
Qed.

Lemma enough_budget size : enough (salvage_budget size) size.
Proof. unfold enough, salvage_budget, ESmallObjectBytes. lia. Qed.

Lemma scan_enough k fl bytes :
  0 <= bytes -> enough k bytes -> scan k fl bytes <> ScanFuel.
Proof.
  revert bytes. induction k as [|k IH]; intros bytes Hb Hk.
  - unfold enough in Hk. lia.
  - simpl. destruct (Z.leb_spec bytes ESmallObjectBytes) as [Hle|]; [|discriminate].
    repeat case_match; try discriminate.
    rewrite next_bytes by lia. pose proof (M_align_range bytes).
    apply IH; [lia|]. apply enough_next; [lia | exact Hk].
Qed.

Lemma scan_unfold k fl bytes :
  1 <= bytes <= ESmallObjectBytes ->
  scan (S k) fl bytes =
    match fl !! Z.to_nat (M_freelist_index bytes) with
    | Some block =>
        if block =? 0 then scan k fl (bytes + M_align bytes)
        else Stocked bytes block
    | None => NoEntry
    end.
Proof.
  intros Hb. simpl. rewrite (proj2 (Z.leb_le _ _)) by lia.
  rewrite in_table_true by (apply M_freelist_index_range; exact Hb).
  rewrite next_bytes by lia. reflexivity.
Qed.

Lemma scan_above k fl bytes :
  ESmallObjectBytes < bytes -> scan (S k) fl bytes = AllEmpty.
Proof. intros Hb. simpl. rewrite (proj2 (Z.leb_gt _ _)) by lia. reflexivity. Qed.

Lemma empty_classes_cons fl from to :
  fl !! Z.to_nat from = Some 0 ->
  empty_classes fl (from + 1) to -> empty_classes fl from to.
Proof.
  intros H0 Hr i Hi. destruct (Z.eq_dec i from) as [->|Hne]; [exact H0|].
  apply Hr. lia.
Qed.

Lemma scan_all_empty k fl bytes :
  1 <= bytes <= ESmallObjectBytes -> enough k bytes ->
  scan k fl bytes = AllEmpty <->
  empty_classes fl (M_freelist_index bytes) EFreeListsNumber.
Proof.
  revert bytes. induction k as [|k IH]; intros bytes Hb Hk.
  { unfold enough in Hk. lia. }
  rewrite scan_unfold by exact Hb.
  pose proof (M_freelist_index_range bytes Hb) as Hi.
  pose proof (M_align_range bytes) as Ha.
  unfold ESmallObjectBytes, EFreeListsNumber in *.
  destruct (Z_le_gt_dec (bytes + M_align bytes) 4096) as [Hn|Hn].
  - specialize (IH (bytes + M_align bytes) ltac:(lia)
                   (enough_next k bytes ltac:(unfold ESmallObjectBytes; lia) Hk)).
    rewrite M_freelist_index_step in IH by lia.
    destruct (fl !! Z.to_nat (M_freelist_index bytes)) as [block|] eqn:E.
    + destruct (Z.eqb_spec block 0) as [->|Hne].
      * rewrite IH. split.
        -- intros H. apply empty_classes_cons; assumption.
        -- intros H i Hr. apply H. lia.
      * split; [discriminate|]. intros H.
        specialize (H (M_freelist_index bytes) ltac:(lia)). congruence.
    + split; [discriminate|]. intros H.
      specialize (H (M_freelist_index bytes) ltac:(lia)). congruence.
  - pose proof (M_freelist_index_last bytes ltac:(lia) ltac:(lia)) as Hlast.
    assert (Hk' : exists k', k = S k').
    { unfold enough, ESmallObjectBytes in Hk. destruct k; [lia|eauto]. }
    destruct Hk' as [k' ->]. rewrite scan_above by (unfold ESmallObjectBytes; lia).
    rewrite Hlast in *.
    destruct (fl !! Z.to_nat 55) as [block|] eqn:E.
    + destruct (Z.eqb_spec block 0) as [->|Hne].
      * split; [|reflexivity]. intros _ i Hr.
        replace i with 55 by lia. exact E.
      * split; [discriminate|]. intros H.
        specialize (H 55 ltac:(lia)). congruence.
    + split; [discriminate|]. intros H.
      specialize (H 55 ltac:(lia)). congruence.
Qed.

Lemma scan_stocked k fl bytes bytes' block :
  1 <= bytes <= ESmallObjectBytes ->
  scan k fl bytes = Stocked bytes' block ->
  bytes <= bytes' <= ESmallObjectBytes /\
  fl !! Z.to_nat (M_freelist_index bytes') = Some block /\
  block <> 0 /\
  empty_classes fl (M_freelist_index bytes) (M_freelist_index bytes').
Proof.
  revert bytes. induction k as [|k IH]; intros bytes Hb; [discriminate|].
  rewrite scan_unfold by exact Hb.
  pose proof (M_align_range bytes) as Ha.
  destruct (fl !! Z.to_nat (M_freelist_index bytes)) as [b|] eqn:E;
    [|discriminate].
  destruct (Z.eqb_spec b 0) as [->|Hne].
  - unfold ESmallObjectBytes in *.
    destruct (Z_le_gt_dec (bytes + M_align bytes) 4096) as [Hn|Hn].
    + intros H. apply IH in H; [|lia].
      rewrite M_freelist_index_step in H by lia.
      destruct H as (H1 & H2 & H3 & H4). repeat split; try lia; try assumption.
      apply empty_classes_cons; assumption.
    + destruct k; [discriminate|].
      rewrite scan_above by (unfold ESmallObjectBytes; lia). discriminate.
  - intros H. injection H as <- <-. repeat split; try lia; try assumption.
    intros i Hi. lia.
Qed.

Lemma scan_first k fl bytes i block :
  1 <= bytes <= ESmallObjectBytes -> enough k bytes ->
  M_freelist_index bytes <= i < EFreeListsNumber ->
  fl !! Z.to_nat i = Some block -> block <> 0 ->
  empty_classes fl (M_freelist_index bytes) i ->
  exists bytes',
    scan k fl bytes = Stocked bytes' block /\
    M_freelist_index bytes' = i /\
    bytes <= bytes' <= ESmallObjectBytes.
Proof.
  revert bytes. induction k as [|k IH]; intros bytes Hb Hk Hi Hs Hne He.
  { unfold enough in Hk. lia. }
  rewrite scan_unfold by exact Hb.
  pose proof (M_align_range bytes) as Ha.
  pose proof (M_freelist_index_range bytes Hb) as Hr.
  destruct (Z.eq_dec (M_freelist_index bytes) i) as [Heq|Hlt].
  - rewrite Heq, Hs. destruct (Z.eqb_spec block 0); [contradiction|].
    exists bytes. repeat split; (lia || assumption).
  - rewrite (He (M_freelist_index bytes)) by lia. simpl.
    unfold ESmallObjectBytes, EFreeListsNumber in *.
    destruct (Z_le_gt_dec (bytes + M_align bytes) 4096) as [Hn|Hn].
    + destruct (IH (bytes + M_align bytes)) as (bytes' & H1 & H2 & H3);
        try assumption; try lia.
      * apply enough_next; [unfold ESmallObjectBytes; lia | exact Hk].
      * rewrite M_freelist_index_step by lia. lia.
      * rewrite M_freelist_index_step by lia. intros j Hj. apply He. lia.
      * exists bytes'. repeat split; (lia || assumption).
    + pose proof (M_freelist_index_last bytes ltac:(lia) ltac:(lia)). lia.
Qed.


(** *** The size of a pool growth *)

Lemma bytes_to_get_plain need heap :
  0 <= need < 2 ^ 62 -> 0 <= heap < 2 ^ 64 ->
  bytes_to_get need heap =
    if 2 * need + M_round_up (heap / 16) <=? MAX_CHUNK
    then 2 * need + M_round_up (heap / 16)
    else Z.max need MAX_CHUNK.
Proof.
  intros Hn Hh. unfold bytes_to_get, shl64, shr64.
  rewrite Z.shiftl_mul_pow2, Z.shiftr_div_pow2 by lia.
  change (2 ^ 4) with 16. change (2 ^ 1) with 2.
  assert (Hq : 0 <= heap / 16 < 2 ^ 60) by (Z.div_mod_to_equations; lia).
  pose proof (M_round_up_bounds (heap / 16) ltac:(lia)) as Hr.
  pose proof (M_align_range (heap / 16)) as Ha.
  rewrite (wrap_small (need * 2)) by lia.
  unfold add64. rewrite wrap_small by lia.
  replace (need * 2) with (2 * need) by lia. cbv zeta.
  destruct (Z.ltb_spec MAX_CHUNK (2 * need + M_round_up (heap / 16)));
    destruct (Z.leb_spec (2 * need + M_round_up (heap / 16)) MAX_CHUNK);
    (lia || reflexivity).
Qed.

Lemma bytes_to_get_bounds need heap :
  0 <= need < 2 ^ 62 -> 0 <= heap < 2 ^ 64 ->
  need <= bytes_to_get need heap <= Z.max need MAX_CHUNK /\
  bytes_to_get need heap < 2 ^ 64.
Proof.
  intros Hn Hh. rewrite bytes_to_get_plain by assumption.
  assert (Hq : 0 <= heap / 16 < 2 ^ 60) by (Z.div_mod_to_equations; lia).
  pose proof (M_round_up_bounds (heap / 16) ltac:(lia)) as Hr.
  unfold MAX_CHUNK. case_match; lia.
Qed.

(** *** What [recycle_pool] and [adopt_block] change *)

Lemma recycle_pool_inv pb w u w1 :
  recycle_pool pb w = Ret u w1 ->
  start_free w1 = start_free w /\ end_free w1 = end_free w /\
  heap_size w1 = heap_size w /\ sys w1 = sys w /\ calls w1 = calls w /\
  length (free_list w1) = length (free_list w).
Proof.
  unfold recycle_pool. unmonad. unfold bind, ret, gets, load_head, store_next, store_head.
  repeat case_match; intros; simplify_eq; simpl; rewrite ?length_insert; auto 10.
Qed.

Lemma recycle_pool_outcome pb w :
  (exists w1, recycle_pool pb w = Ret tt w1) \/ recycle_pool pb w = Undef.
Proof.
  unfold recycle_pool. unmonad. unfold bind, ret, gets, load_head, store_next, store_head.
  repeat case_match; simplify_eq; eauto.
Qed.

Lemma recycle_pool_empty w : recycle_pool 0 w = Ret tt w.
Proof. reflexivity. Qed.

Lemma adopt_block_inv idx block bytes w u w3 :
  adopt_block idx block bytes w = Ret u w3 ->
  start_free w3 = block /\ end_free w3 = block + bytes /\
  heap_size w3 = heap_size w /\ sys w3 = sys w /\ calls w3 = calls w.
Proof.
  unfold adopt_block. unmonad. unfold bind, ret, modify, load_next, store_head.
  repeat case_match; intros; simplify_eq; simpl; auto 10.
Qed.

Lemma adopt_block_outcome idx block bytes w :
  (exists w3, adopt_block idx block bytes w = Ret tt w3) \/
  adopt_block idx block bytes w = Undef.
Proof.
  unfold adopt_block. unmonad. unfold bind, ret, modify, load_next, store_head.
  repeat case_match; simplify_eq; eauto.
Qed.

Lemma adopt_block_Ret idx block bytes q w :
  0 <= idx < EFreeListsNumber -> table_ok w ->
  block <> 0 -> next_of w !! block = Some q ->
  adopt_block idx block bytes w =
    Ret tt (set_end_free (block + bytes)
              (set_start_free block
                 (set_free_list (<[Z.to_nat idx := q]> (free_list w)) w))).
Proof.
  intros Hi Ht Hb Hq. unfold adopt_block.
  erewrite bind_Ret; [|apply load_next_Ret; eassumption].
  erewrite bind_Ret; [|apply store_head_Ret; assumption].
  reflexivity.
Qed.

Lemma pool_bytes_adopted w block bytes :
  start_free w = block -> end_free w = block + bytes ->
  0 <= bytes < 2 ^ 64 -> pool_bytes w = bytes.
Proof.
  intros Hs He Hb. unfold pool_bytes. rewrite Hs, He.
  replace (block + bytes - block) with bytes by lia.
  apply wrap_small. exact Hb.
Qed.


(** *** [M_chunk_alloc] makes at most one recursive call *)

Lemma M_chunk_alloc_served fuel size nblock w :
  size <= pool_bytes w \/ mul64 size nblock <= pool_bytes w ->
  M_chunk_alloc (S fuel) size nblock w =
    Ret (start_free w, served_blocks size nblock w)
        (bumped size (served_blocks size nblock w) w).
Proof.
  intros H. unfold served_blocks, bumped.
  destruct (Z.leb_spec (mul64 size nblock) (pool_bytes w)) as [Hf|Hp].
  - apply M_chunk_alloc_fits. exact Hf.
  - apply M_chunk_alloc_partial; lia.
Qed.

Lemma served_blocks_pos size nblock w :
  1 <= size -> 1 <= nblock -> size <= pool_bytes w ->
  1 <= served_blocks size nblock w.
Proof.
  intros Hs Hn Hp. unfold served_blocks. case_match; [exact Hn|].
  Z.div_mod_to_equations. nia.
Qed.

Lemma pool_bytes_installed to_get w1 :
  0 <= to_get < 2 ^ 64 -> pool_bytes (installed to_get w1) = to_get.
Proof.
  intros H. unfold pool_bytes, installed, asked. simpl.
  match goal with |- wrap ?x = _ => replace x with to_get by lia end.
  apply wrap_small. exact H.
Qed.

Section Refill.
Variables (size nblock : Z) (w : world).
Hypothesis Hsize : 1 <= size <= ESmallObjectBytes.
Hypothesis Hnblock : 1 <= nblock.
Hypothesis Hneed : size * nblock < 2 ^ 62.
Hypothesis Hheap : heap_ok w.

Lemma need_plain : mul64 size nblock = size * nblock.
Proof. unfold mul64. apply wrap_small. unfold ESmallObjectBytes in *. nia. Qed.

Lemma need_range : 0 <= mul64 size nblock < 2 ^ 62.
Proof. rewrite need_plain. unfold ESmallObjectBytes in *. nia. Qed.

Lemma size_le_need : size <= mul64 size nblock.
Proof. rewrite need_plain. unfold ESmallObjectBytes in *. nia. Qed.

Lemma retry_after_growth fuel w1 :
  heap_size w1 = heap_size w ->
  let to_get := bytes_to_get (mul64 size nblock) (heap_size w1) in
  M_chunk_alloc (S fuel) size nblock (installed to_get w1) =
    Ret (fst (sys_malloc to_get (sys w1)), nblock)
        (bumped size nblock (installed to_get w1)).
Proof.
  intros Hh to_get.
  pose proof (bytes_to_get_bounds (mul64 size nblock) (heap_size w1)
                need_range ltac:(rewrite Hh; exact Hheap)) as [[Hb _] Hb'].
  rewrite M_chunk_alloc_fits; [reflexivity|].
  fold to_get in Hb, Hb'.
  rewrite pool_bytes_installed; [exact Hb|]. pose proof need_range. lia.
Qed.

Lemma retry_after_salvage fuel bytes block w2 w3 k :
  scan k (free_list w2) size = Stocked bytes block ->
  adopt_block (M_freelist_index bytes) block bytes w2 = Ret tt w3 ->
  pool_bytes w3 = bytes /\ size <= bytes <= ESmallObjectBytes /\
  1 <= served_blocks size nblock w3 /\
  M_chunk_alloc (S fuel) size nblock w3 =
    Ret (block, served_blocks size nblock w3)
        (bumped size (served_blocks size nblock w3) w3).
Proof.
  intros Hscan Hadopt.
  apply scan_stocked in Hscan; [|exact Hsize]. destruct Hscan as (Hb & _).
  apply adopt_block_inv in Hadopt. destruct Hadopt as (Hs & He & _).
  assert (Hp : pool_bytes w3 = bytes).
  { eapply pool_bytes_adopted; try eassumption.
    unfold ESmallObjectBytes in *. lia. }
  repeat split; try lia; try assumption.
  - apply served_blocks_pos; lia.
  - rewrite M_chunk_alloc_served by lia. rewrite Hs. reflexivity.
Qed.

Lemma M_chunk_alloc_two_calls fuel :
  M_chunk_alloc (S (S fuel)) size nblock w = M_chunk_alloc 2 size nblock w /\
  M_chunk_alloc 2 size nblock w <> OutOfFuel.
Proof.
  destruct (Z_le_gt_dec size (pool_bytes w)) as [Hp|Hp].
  { rewrite !M_chunk_alloc_served by lia. split; [reflexivity|discriminate]. }
  pose proof size_le_need as Hsn.
  rewrite !M_chunk_alloc_grow by lia.
  destruct (recycle_pool (pool_bytes w) w) as [[] w1| | |] eqn:Hrec;
    try (split; [reflexivity|discriminate]).
  - apply recycle_pool_inv in Hrec. destruct Hrec as (_ & _ & Hh & _).
    cbv zeta. fold (asked (bytes_to_get (mul64 size nblock) (heap_size w1)) w1).
    fold (installed (bytes_to_get (mul64 size nblock) (heap_size w1)) w1).
    destruct (fst _ =? 0).
    + destruct (scan _ _ size) as [bytes block| | |] eqn:Hscan;
        try (split; [reflexivity|discriminate]).
      * destruct (adopt_block_outcome (M_freelist_index bytes) block bytes
                    (asked (bytes_to_get (mul64 size nblock) (heap_size w1)) w1))
          as [[w3 Ha]|Ha]; rewrite Ha.
        -- destruct (retry_after_salvage fuel _ _ _ _ _ Hscan Ha) as (_ & _ & _ & ->).
           destruct (retry_after_salvage 0 _ _ _ _ _ Hscan Ha) as (_ & _ & _ & ->).
           split; [reflexivity|discriminate].
        -- split; [reflexivity|discriminate].
      * exfalso. revert Hscan. apply scan_enough; [lia|apply enough_budget].
    + rewrite !retry_after_growth by exact Hh.
      split; [reflexivity|discriminate].
  - destruct (recycle_pool_outcome (pool_bytes w) w) as [[w1 H]|H]; congruence.
Qed.


(** With room for two calls, a call that finds the pool too small for one
    block and recycles its remainder into [w1] ends in one of three ways. *)
Lemma M_chunk_alloc_resolved fuel w1 :
  pool_bytes w < size ->
  recycle_pool (pool_bytes w) w = Ret tt w1 ->
  let to_get := bytes_to_get (mul64 size nblock) (heap_size w1) in
  M_chunk_alloc (S (S fuel)) size nblock w =
    if fst (sys_malloc to_get (sys w1)) =? 0 then
      match scan (salvage_budget size) (free_list w1) size with
      | Stocked bytes block =>
          match adopt_block (M_freelist_index bytes) block bytes
                            (asked to_get w1) with
          | Ret _ w3 =>
              Ret (block, served_blocks size nblock w3)
                  (bumped size (served_blocks size nblock w3) w3)
          | _ => Undef
          end
      | AllEmpty => Throw (set_end_free 0 (asked to_get w1))
      | NoEntry => Undef
      | ScanFuel => OutOfFuel
      end
    else
      Ret (fst (sys_malloc to_get (sys w1)), nblock)
          (bumped size nblock (installed to_get w1)).
Proof.
  intros Hp Hrec to_get. pose proof size_le_need as Hsn.
  rewrite M_chunk_alloc_grow by lia. rewrite Hrec.
  apply recycle_pool_inv in Hrec. destruct Hrec as (_ & _ & Hh & _).
  cbv zeta. fold to_get. fold (asked to_get w1). fold (installed to_get w1).
  destruct (fst (sys_malloc to_get (sys w1)) =? 0).
  - change (free_list (asked to_get w1)) with (free_list w1).
    destruct (scan _ _ size) as [bytes block| | |] eqn:Hscan; try reflexivity.
    destruct (adopt_block_outcome (M_freelist_index bytes) block bytes
                (asked to_get w1)) as [[w3 Ha]|Ha]; rewrite Ha; [|reflexivity].
    destruct (retry_after_salvage fuel bytes block (asked to_get w1) w3 _
                Hscan Ha) as (_ & _ & _ & ->).
    reflexivity.
  - apply (retry_after_growth fuel w1 Hh).
Qed.


(** Every system call of one [M_chunk_alloc] is its single [std::malloc]. *)
Lemma M_chunk_alloc_calls fuel w' :
  world_of (M_chunk_alloc fuel size nblock w) = Some w' ->
  calls w' = calls w \/
  exists p,
    calls w' =
      Malloc (bytes_to_get (mul64 size nblock) (heap_size w)) p :: calls w.
Proof.
  destruct fuel as [|fuel]; [discriminate|].
  destruct (Z_le_gt_dec size (pool_bytes w)) as [Hp|Hp].
  { rewrite M_chunk_alloc_served by lia. intros [= <-]. left. reflexivity. }
  pose proof size_le_need as Hsn.
  rewrite M_chunk_alloc_grow by lia.
  destruct (recycle_pool (pool_bytes w) w) as [[] w1| | |] eqn:Hrec;
    try discriminate.
  - apply recycle_pool_inv in Hrec. destruct Hrec as (_ & _ & Hh & _ & Hc & _).
    cbv zeta. rewrite <- Hh, <- Hc.
    set (to_get := bytes_to_get (mul64 size nblock) (heap_size w1)).
    fold (asked to_get w1). fold (installed to_get w1).
    destruct (fst (sys_malloc to_get (sys w1)) =? 0).
    + destruct (scan _ _ size) as [bytes block| | |] eqn:Hscan;
        try discriminate.
      * destruct (adopt_block_outcome (M_freelist_index bytes) block bytes
                    (asked to_get w1)) as [[w3 Ha]|Ha]; rewrite Ha;
          [|discriminate].
        destruct fuel as [|fuel]; [discriminate|].
        destruct (retry_after_salvage fuel bytes block (asked to_get w1) w3 _
                    Hscan Ha) as (_ & _ & _ & ->).
        apply adopt_block_inv in Ha. destruct Ha as (_ & _ & _ & _ & Hc3).
        intros [= <-]. right. eexists. simpl. rewrite Hc3. reflexivity.
      * intros [= <-]. right. eexists. reflexivity.
    + destruct fuel as [|fuel]; [discriminate|].
      pose proof (retry_after_growth fuel w1 Hh) as Hr.
      cbv zeta in Hr. fold to_get in Hr. rewrite Hr.
      intros [= <-]. right. eexists. reflexivity.
  - destruct (recycle_pool_outcome (pool_bytes w) w) as [[w1 H]|H]; congruence.
Qed.

End Refill.

Lemma refill_size n :
  1 <= n <= ESmallObjectBytes ->
  1 <= M_round_up n <= ESmallObjectBytes /\ M_round_up n * 10 < 2 ^ 62 /\
  mul64 (M_round_up n) 10 = M_round_up n * 10.
Proof.
  intros Hn. pose proof (M_round_up_small n Hn) as Hr.
  unfold ESmallObjectBytes in *. repeat split; try lia.
  unfold mul64. apply wrap_small. lia.
Qed.

Lemma chain_blocks_calls k index n next_block w u w' :
  chain_blocks k index n next_block w = Ret u w' -> calls w' = calls w.
Proof.
  revert next_block w. induction k as [|k IH]; intros next_block w; simpl.
  - intros H. unmonad. unfold ret in H. simplify_eq. reflexivity.
  - unmonad. unfold bind at 1 2 3. unfold load_head, store_next, store_head.
    repeat case_match; try discriminate; simplify_eq; simpl in *.
    intros H. apply IH in H. exact H.
Qed.

Lemma M_refill_inv fuel n w r w' :
  M_refill fuel n w = Ret r w' ->
  exists c nblock w1,
    M_chunk_alloc fuel n 10 w = Ret (c, nblock) w1 /\
    calls w' = calls w1 /\
    (r = Value c /\ nblock = 1 /\ w' = w1 \/ r = NoValue /\ nblock <> 1).
Proof.
  unfold M_refill. unmonad. unfold bind at 1.
  destruct (M_chunk_alloc fuel n 10 w) as [[c nblock] w1| | |]; try discriminate.
  simpl. destruct (Z.eqb_spec nblock 1) as [->|Hne].
  - unfold ret. intros H. simplify_eq. do 3 eexists.
    split; [reflexivity|]. split; [reflexivity|]. left. auto.
  - unfold bind, ret.
    destruct (chain_blocks _ _ _ _ w1) as [u w2| | |] eqn:Hc;
      try discriminate.
    intros H. simplify_eq. apply chain_blocks_calls in Hc. do 3 eexists.
    split; [reflexivity|]. split; [exact Hc|]. right. auto.
Qed.

(** *** What [M_refill] chains *)

Lemma chain_insert_fresh j (m : gmap Z Z) h old b v :
  chain j m h = Some old -> b ∉ old -> chain j (<[b := v]> m) h = Some old.
Proof.
  revert h old. induction j as [|j IH]; intros h old; simpl.
  - destruct (h =? 0); [auto | discriminate].
  - destruct (Z.eqb_spec h 0) as [|Hh]; [auto|].
    destruct (m !! h) as [q|] eqn:Eq; [|discriminate].
    destruct (chain j m q) as [old'|] eqn:Ec; [|discriminate].
    simpl. intros [= <-] Hb. apply not_elem_of_cons in Hb. destruct Hb as [Hne Hb].
    rewrite lookup_insert_ne by auto. rewrite Eq.
    rewrite (IH q old' Ec Hb). reflexivity.
Qed.

Lemma chain_blocks_stock k : forall index n b w j h old,
  0 <= index < EFreeListsNumber -> table_ok w ->
  0 < n -> 0 < b ->
  free_list w !! Z.to_nat index = Some h ->
  chain j (next_of w) h = Some old ->
  Forall (fun x => x < b) old ->
  exists w',
    chain_blocks k index n b w = Ret tt w' /\
    blocks_of (j + k) w' index = Some (rev (carved k n b) ++ old) /\
    table_ok w' /\
    start_free w' = start_free w /\ end_free w' = end_free w /\
    heap_size w' = heap_size w /\ sys w' = sys w /\ calls w' = calls w /\
    forall i, i <> Z.to_nat index -> free_list w' !! i = free_list w !! i.
Proof.
  induction k as [|k IH]; intros index n b w j h old Hi Ht Hn Hb Hh Hc Hold.
  - exists w. simpl. split; [reflexivity|].
    split; [unfold blocks_of; rewrite Hh, Nat.add_0_r; exact Hc|]. auto 10.
  - simpl.
    erewrite bind_Ret; [|apply load_head_Ret; eassumption].
    erewrite bind_Ret; [|apply store_next_Ret; lia].
    erewrite bind_Ret; [|apply store_head_Ret; assumption].
    set (w1 := set_free_list _ _).
    assert (Hlen : (Z.to_nat index < length (free_list w))%nat).
    { unfold table_ok in Ht. unfold EFreeListsNumber in *. lia. }
    destruct (IH index n (b + n) w1 (S j) b (b :: old)) as (w' & Hr & Hbl & Hrest);
      try assumption; try lia.
    + unfold table_ok in *. subst w1. simpl. rewrite length_insert. exact Ht.
    + subst w1. simpl. apply list_lookup_insert_eq. exact Hlen.
    + subst w1. simpl. destruct (Z.eqb_spec b 0) as [|_]; [lia|].
      rewrite lookup_insert_eq.
      rewrite (chain_insert_fresh j (next_of w) h old b h Hc); [reflexivity|].
      intros Hin. rewrite Forall_forall in Hold. specialize (Hold b Hin). lia.
    + constructor; [lia|]. eapply Forall_impl; [exact Hold|].
      simpl. intros x Hx. lia.
    + exists w'. split; [exact Hr|].
      destruct Hrest as (Ht' & H1 & H2 & H3 & H4 & H5 & H6).
      split.
      { replace (j + S k)%nat with (S j + k)%nat by lia. rewrite Hbl.
        simpl. rewrite <- app_assoc. reflexivity. }
      split; [exact Ht'|]. repeat split; try assumption.
      intros i Hne. rewrite H6 by exact Hne. subst w1. simpl.
      apply list_lookup_insert_ne. auto.
Qed.

(** [M_refill] with more than one block: the blocks after the first are
    chained onto the list of the class, the last carved block first, and
    no value is returned. *)
Lemma M_refill_chains fuel n w c nblock w1 j old h :
  M_chunk_alloc fuel n 10 w = Ret (c, nblock) w1 ->
  nblock <> 1 ->
  0 <= M_freelist_index n < EFreeListsNumber -> table_ok w1 ->
  0 < n -> 0 < c ->
  free_list w1 !! Z.to_nat (M_freelist_index n) = Some h ->
  chain j (next_of w1) h = Some old ->
  Forall (fun x => x < c + n) old ->
  exists w',
    M_refill fuel n w = Ret NoValue w' /\
    blocks_of (j + Z.to_nat (nblock - 1)) w' (M_freelist_index n) =
      Some (rev (carved (Z.to_nat (nblock - 1)) n (c + n)) ++ old) /\
    c ∉ carved (Z.to_nat (nblock - 1)) n (c + n).
Proof.
  intros Hc Hnb Hi Ht Hn Hcp Hh Hch Hold.
  destruct (chain_blocks_stock (Z.to_nat (nblock - 1)) (M_freelist_index n) n
              (c + n) w1 j h old Hi Ht Hn ltac:(lia) Hh Hch Hold)
    as (w' & Hr & Hbl & _).
  exists w'. split; [|split; [exact Hbl|]].
  - unfold M_refill. erewrite bind_Ret; [|exact Hc]. simpl.
    destruct (Z.eqb_spec nblock 1); [contradiction|].
    erewrite bind_Ret; [|exact Hr]. reflexivity.
  - generalize (Z.to_nat (nblock - 1)). intros k.
    assert (Hge : forall k b, c < b -> c ∉ carved k n b).
    { clear -Hn. induction k as [|k IH]; intros b Hb; simpl.
      - apply not_elem_of_nil.
      - apply not_elem_of_cons. split; [lia|]. apply IH. lia. }
    apply Hge. lia.
Qed.

(** *** [allocate] needs two levels of [M_chunk_alloc] at most *)

Lemma chain_blocks_no_fuel k index n next_block w :
  chain_blocks k index n next_block w <> OutOfFuel.
Proof.
  revert next_block w. induction k as [|k IH]; intros next_block w; simpl.
  - discriminate.
  - unmonad. unfold bind at 1 2 3. unfold load_head, store_next, store_head.
    repeat case_match; try discriminate; simplify_eq. apply IH.
Qed.

Lemma bind_cong_l {A B} (m1 m2 : M A) (k : A -> M B) w :
  m1 w = m2 w -> (m1 ≫= k) w = (m2 ≫= k) w.
Proof. intros H. unmonad. unfold bind. rewrite H. reflexivity. Qed.

Lemma bind_cong_r {A B} (m : M A) (k1 k2 : A -> M B) w :
  (forall a w', m w = Ret a w' -> k1 a w' = k2 a w') ->
  (m ≫= k1) w = (m ≫= k2) w.
Proof.
  intros H. unmonad. unfold bind. destruct (m w); auto.
Qed.

Lemma bind_no_fuel {A B} (m : M A) (k : A -> M B) w :
  m w <> OutOfFuel ->
  (forall a w', m w = Ret a w' -> k a w' <> OutOfFuel) ->
  (m ≫= k) w <> OutOfFuel.
Proof.
  intros Hm Hk. unmonad. unfold bind. destruct (m w); auto; discriminate.
Qed.

Lemma load_head_no_fuel idx w : load_head idx w <> OutOfFuel.
Proof. unfold load_head. repeat case_match; discriminate. Qed.

Lemma load_next_no_fuel p w : load_next p w <> OutOfFuel.
Proof. unfold load_next. repeat case_match; discriminate. Qed.

Lemma M_refill_two_calls fuel n w :
  1 <= n <= ESmallObjectBytes -> heap_ok w ->
  M_refill (S (S fuel)) (M_round_up n) w = M_refill 2 (M_round_up n) w /\
  M_refill 2 (M_round_up n) w <> OutOfFuel.
Proof.
  intros Hn Hh. destruct (refill_size n Hn) as (Hsize & Hneed & _).
  destruct (M_chunk_alloc_two_calls (M_round_up n) 10 w Hsize ltac:(lia)
              Hneed Hh fuel) as [Heq Hne].
  unfold M_refill. split.
  - apply bind_cong_l. exact Heq.
  - apply bind_no_fuel; [exact Hne|]. intros [c nb] w1 _. simpl.
    destruct (nb =? 1); [discriminate|].
    apply bind_no_fuel; [apply chain_blocks_no_fuel | discriminate].
Qed.

(** Two levels of [M_chunk_alloc] are all that [allocate] ever uses. *)
Lemma allocate_two_calls fuel n w :
  1 <= n <= ESmallObjectBytes -> heap_ok w ->
  allocate (S (S fuel)) n w = allocate 2 n w /\
  allocate 2 n w <> OutOfFuel.
Proof.
  intros Hn Hh. unfold allocate. rewrite small_true by lia. split.
  - apply bind_cong_r. intros h w' Hl.
    apply load_head_inv in Hl. destruct Hl as (-> & _).
    destruct (h =? 0); [|reflexivity].
    apply bind_cong_l. apply M_refill_two_calls; assumption.
  - apply bind_no_fuel; [apply load_head_no_fuel|]. intros h w' Hl.
    apply load_head_inv in Hl. destruct Hl as (-> & _).
    destruct (h =? 0).
    + apply bind_no_fuel; [|discriminate].
      apply M_refill_two_calls; assumption.
    + apply bind_no_fuel; [apply load_next_no_fuel | discriminate].
Qed.

(** ** The properties of the design document *)

(** C9: for every [n > 4096], [allocate n] returns what [std::malloc(n)]
    returns and [deallocate p n] calls [std::free(p)]; each makes this one
    call to the system and leaves the free-list table, the pool bounds
    [start_free] / [end_free], [heap_size] and the block memory as they
    were. *)
Theorem large_requests_bypass_pool fuel n p w :
  ESmallObjectBytes < n ->
  (exists w',
     allocate fuel n w = Ret (Value (fst (sys_malloc n (sys w)))) w' /\
     pool_state w' = pool_state w /\ next_of w' = next_of w /\
     sys w' = snd (sys_malloc n (sys w)) /\
     calls w' = Malloc n (fst (sys_malloc n (sys w))) :: calls w) /\
  (exists w',
     deallocate p n w = Ret tt w' /\
     pool_state w' = pool_state w /\ next_of w' = next_of w /\
     sys w' = sys_free p (sys w) /\
     calls w' = Free p :: calls w).
Proof.
  intros Hn. split.
  - rewrite allocate_large by exact Hn. eexists. split; [reflexivity|].
    repeat split.
  - unfold deallocate. rewrite (proj2 (Z.ltb_lt _ _) Hn).
    eexists. split; [reflexivity|]. repeat split.
Qed.

(** C3: for every [n] in [1..=4096], a block [p] returned by
    [allocate n] and given back with [deallocate p n] is the head of the
    list of the class of [n] afterwards, and the next [allocate n], with
    nothing in between, returns [p] again.  The source requires [p] not to
    be null. *)
Theorem deallocate_allocate_round_trip fuel fuel' n p w0 w :
  1 <= n <= ESmallObjectBytes ->
  sane w0 ->
  allocate fuel n w0 = Ret (Value p) w ->
  p <> 0 ->
  exists w1,
    deallocate p n w = Ret tt w1 /\
    free_list w1 !! Z.to_nat (M_freelist_index n) = Some p /\
    allocate fuel' n w1 = Ret (Value p) w1.
Proof.
  intros Hn Hs Ha Hp.
  pose proof (sane_allocate fuel n w0 Hs) as Hw. rewrite Ha in Hw.
  destruct Hw as [Ht _].
  pose proof (M_freelist_index_range n Hn) as Hi.
  exists (pushed (M_freelist_index n) p w).
  split; [apply deallocate_small; assumption|].
  assert (Hl : free_list (pushed (M_freelist_index n) p w)
                 !! Z.to_nat (M_freelist_index n) = Some p).
  { unfold pushed. simpl. apply list_lookup_insert_eq.
    unfold table_ok in Ht. unfold EFreeListsNumber in *. lia. }
  split; [exact Hl|].
  eapply allocate_stocked; try eassumption.
  unfold pushed. simpl. apply lookup_insert_eq.
Qed.


Lemma chain_blocks_no_throw k index n next_block w w' :
  chain_blocks k index n next_block w <> Throw w'.
Proof.
  revert next_block w. induction k as [|k IH]; intros next_block w; simpl.
  - discriminate.
  - unmonad. unfold bind at 1 2 3. unfold load_head, store_next, store_head.
    repeat case_match; try discriminate; simplify_eq. apply IH.
Qed.

Lemma M_refill_throw_inv fuel n w w' :
  M_refill fuel n w = Throw w' -> M_chunk_alloc fuel n 10 w = Throw w'.
Proof.
  unfold M_refill. unmonad. unfold bind at 1.
  destruct (M_chunk_alloc fuel n 10 w) as [[c nblock] w1|w1| |];
    try discriminate; [|intros H; injection H as ->; reflexivity].
  simpl. destruct (nblock =? 1); [discriminate|].
  unfold bind, ret.
  destruct (chain_blocks _ _ _ _ w1) as [u w2|w2| |] eqn:Hc; try discriminate.
  exfalso. exact (chain_blocks_no_throw _ _ _ _ _ _ Hc).
Qed.

(** C8: a call [M_chunk_alloc(size, nblock)] made by [M_refill] for a
    request [n] in [1..=4096] ([size = M_round_up n], [nblock = 10])
    terminates with one recursive call at most: with room for two calls
    the outcome does not depend on the fuel and is never [OutOfFuel].  The
    region asked from the system holds [bytes_to_get >= need] bytes, so
    after a successful [std::malloc] the retry returns the 10 blocks from
    the new region by itself (fuel 1); after a salvage the adopted region
    holds at least [size] bytes and the retry serves at least one block by
    itself. *)
Theorem M_chunk_alloc_terminates fuel n w :
  1 <= n <= ESmallObjectBytes ->
  heap_ok w ->
  let size := M_round_up n in
  let need := mul64 size 10 in
  let to_get := bytes_to_get need (heap_size w) in
  M_chunk_alloc (S (S fuel)) size 10 w = M_chunk_alloc 2 size 10 w /\
  M_chunk_alloc 2 size 10 w <> OutOfFuel /\
  need <= to_get /\
  forall w1,
    pool_bytes w < size ->
    recycle_pool (pool_bytes w) w = Ret tt w1 ->
    (fst (sys_malloc to_get (sys w1)) <> 0 ->
     pool_bytes (installed to_get w1) = to_get /\
     M_chunk_alloc 1 size 10 (installed to_get w1) =
       Ret (fst (sys_malloc to_get (sys w1)), 10)
           (bumped size 10 (installed to_get w1)) /\
     M_chunk_alloc 2 size 10 w =
       Ret (fst (sys_malloc to_get (sys w1)), 10)
           (bumped size 10 (installed to_get w1))) /\
    (fst (sys_malloc to_get (sys w1)) = 0 ->
     forall bytes block w3,
       scan (salvage_budget size) (free_list w1) size = Stocked bytes block ->
       adopt_block (M_freelist_index bytes) block bytes (asked to_get w1)
         = Ret tt w3 ->
       size <= pool_bytes w3 /\
       1 <= served_blocks size 10 w3 /\
       M_chunk_alloc 1 size 10 w3 =
         Ret (block, served_blocks size 10 w3)
             (bumped size (served_blocks size 10 w3) w3) /\
       M_chunk_alloc 2 size 10 w =
         Ret (block, served_blocks size 10 w3)
             (bumped size (served_blocks size 10 w3) w3)).
Proof.
  intros Hn Hh size need to_get.
  destruct (refill_size n Hn) as (Hsize & Hneed & Hmul). fold size in Hsize, Hneed, Hmul.
  assert (H10 : 1 <= 10) by lia.
  pose proof (need_range size 10 Hsize H10 Hneed) as Hnr. fold need in Hnr.
  destruct (M_chunk_alloc_two_calls size 10 w Hsize H10 Hneed Hh fuel)
    as [Heq Hne].
  split; [exact Heq|]. split; [exact Hne|].
  split; [apply (bytes_to_get_bounds need (heap_size w) Hnr Hh)|].
  intros w1 Hp Hrec.
  pose proof (M_chunk_alloc_resolved size 10 w Hsize H10 Hneed Hh 0 w1 Hp Hrec)
    as Hres. cbv zeta in Hres.
  pose proof (recycle_pool_inv _ _ _ _ Hrec) as (_ & _ & Hh1 & _).
  fold need in Hres. rewrite Hh1 in Hres. fold to_get in Hres.
  split.
  - intros Hnz. apply Z.eqb_neq in Hnz. rewrite Hnz in Hres.
    pose proof (retry_after_growth size 10 w Hsize H10 Hneed Hh 0 w1 Hh1) as Hr.
    cbv zeta in Hr. fold need in Hr. rewrite Hh1 in Hr. fold to_get in Hr.
    split; [|split; [exact Hr | exact Hres]].
    apply pool_bytes_installed.
    pose proof (bytes_to_get_bounds need (heap_size w) Hnr Hh). fold to_get in H. lia.
  - intros Hz bytes block w3 Hscan Ha. rewrite Hz, Z.eqb_refl in Hres.
    rewrite Hscan, Ha in Hres.
    destruct (retry_after_salvage size 10 Hsize H10 0 bytes block
                (asked to_get w1) w3 _ Hscan Ha) as (Hpb & Hb & Hk & Hr).
    repeat split; try assumption. lia.
Qed.

(** C7: [allocate n] for [n] in [1..=4096] ends within two levels of
    [M_chunk_alloc] and calls the system allocator once at most; that
    call is [std::malloc] for [2 * need + M_round_up (heap_size / 16)]
    bytes when this value is at most 1 MiB and for [max need 1MiB] bytes
    otherwise, where [need = 10 * M_round_up n] and [heap_size] is the
    value at the call; the size asked never exceeds [max need 1MiB]. *)
Theorem pool_growth_request_size fuel n w :
  1 <= n <= ESmallObjectBytes ->
  heap_ok w ->
  let need := M_round_up n * 10 in
  let grown := 2 * need + M_round_up (heap_size w / 16) in
  let asked_size := if grown <=? 1048576 then grown
                    else Z.max need 1048576 in
  allocate (S (S fuel)) n w <> OutOfFuel /\
  asked_size <= Z.max need 1048576 /\
  forall f w',
    world_of (allocate f n w) = Some w' ->
    calls w' = calls w \/
    exists p, calls w' = Malloc asked_size p :: calls w.
Proof.
  intros Hn Hh need grown asked_size.
  destruct (refill_size n Hn) as (Hsize & Hneed & Hmul).
  assert (H10 : 1 <= 10) by lia.
  assert (Hnr : 0 <= need < 2 ^ 62)
    by (unfold need; unfold ESmallObjectBytes in *; lia).
  assert (Hsz : bytes_to_get (mul64 (M_round_up n) 10) (heap_size w)
                = asked_size).
  { rewrite Hmul. fold need.
    rewrite (bytes_to_get_plain need (heap_size w) Hnr Hh).
    unfold MAX_CHUNK. reflexivity. }
  split.
  { destruct (allocate_two_calls fuel n w Hn Hh) as [-> Hne]. exact Hne. }
  split.
  { rewrite <- Hsz, Hmul. fold need.
    pose proof (bytes_to_get_bounds need (heap_size w) Hnr Hh) as Hb.
    unfold MAX_CHUNK in Hb. lia. }
  intros f w'. unfold allocate. rewrite small_true by lia.
  unmonad. unfold bind at 1.
  destruct (load_head (M_freelist_index n) w) as [h w0|w0| |] eqn:Hl;
    try discriminate;
    [|exfalso; revert Hl; unfold load_head; repeat case_match; discriminate].
  apply load_head_inv in Hl. destruct Hl as (-> & Hl & _).
  destruct (Z.eqb_spec h 0) as [->|Hnz].
  - (* the list is empty: refill *)
    unfold bind.
    destruct (M_refill f (M_round_up n) w) as [r w2| w2 | |] eqn:Hr;
      simpl; try discriminate.
    + unfold ret. intros [= <-].
      apply M_refill_inv in Hr. destruct Hr as (c & nb & w1 & Hc & Hcalls & _).
      pose proof (M_chunk_alloc_calls (M_round_up n) 10 w Hsize H10 Hneed Hh
                    f w1) as Hcc.
      rewrite Hc in Hcc. specialize (Hcc eq_refl).
      rewrite <- Hcalls, Hsz in Hcc. exact Hcc.
    + intros [= <-]. apply M_refill_throw_inv in Hr.
      pose proof (M_chunk_alloc_calls (M_round_up n) 10 w Hsize H10 Hneed Hh
                    f w2) as Hcc.
      rewrite Hr in Hcc. specialize (Hcc eq_refl).
      rewrite Hsz in Hcc. exact Hcc.
  - (* the list is stocked *)
    unfold bind, load_next, ret.
    destruct (h =? 0); [discriminate|].
    destruct (next_of w !! h); [|discriminate].
    simpl. intros [= <-]. left. reflexivity.
Qed.

Lemma pool_bytes_exhausted w : start_free w = end_free w -> pool_bytes w = 0.
Proof.
  intros H. unfold pool_bytes. rewrite H, Z.sub_diag. reflexivity.
Qed.

(** C4: let a request [n] in [1..=4096] find the pool too small for one
    block of [size = M_round_up n] bytes, and let [w1] be the world after
    the remainder of the pool was recycled.  [M_chunk_alloc] throws
    [std::bad_alloc] if and only if [std::malloc] fails and the free lists
    of all classes from the class of [size] up to the last are empty in
    [w1].  When [std::malloc] fails and [i] is the first of these classes
    whose list is stocked, the head [block] of list [i] leaves that list,
    the region [block, block + bytes) becomes the pool, for a [bytes] of
    class [i] that is at least [size], and the retry returns [block] with
    at least one block served. *)
Theorem M_chunk_alloc_out_of_memory fuel n w w1 :
  1 <= n <= ESmallObjectBytes ->
  heap_ok w -> table_ok w ->
  let size := M_round_up n in
  let to_get := bytes_to_get (mul64 size 10) (heap_size w) in
  let p := fst (sys_malloc to_get (sys w)) in
  let result := M_chunk_alloc (S (S fuel)) size 10 w in
  pool_bytes w < size ->
  recycle_pool (pool_bytes w) w = Ret tt w1 ->
  ((exists w', result = Throw w') <->
   p = 0 /\
   empty_classes (free_list w1) (M_freelist_index size) EFreeListsNumber) /\
  (forall i block q,
     p = 0 ->
     M_freelist_index size <= i < EFreeListsNumber ->
     free_list w1 !! Z.to_nat i = Some block -> block <> 0 ->
     empty_classes (free_list w1) (M_freelist_index size) i ->
     next_of w1 !! block = Some q ->
     exists bytes k w',
       result = Ret (block, k) w' /\ 1 <= k /\
       size <= bytes <= ESmallObjectBytes /\ M_freelist_index bytes = i /\
       free_list w' = <[Z.to_nat i := q]> (free_list w1) /\
       start_free w' = block + size * k /\ end_free w' = block + bytes).
Proof.
  intros Hn Hh Ht size to_get p result Hp Hrec.
  destruct (refill_size n Hn) as (Hsize & Hneed & Hmul).
  fold size in Hsize, Hneed, Hmul.
  assert (H10 : 1 <= 10) by lia.
  pose proof (M_chunk_alloc_resolved size 10 w Hsize H10 Hneed Hh fuel w1
                Hp Hrec) as Hres.
  cbv zeta in Hres. fold result in Hres.
  pose proof (recycle_pool_inv _ _ _ _ Hrec) as (_ & _ & Hh1 & Hs1 & _ & Hlen).
  rewrite Hh1, Hs1 in Hres. fold to_get in Hres. fold p in Hres.
  pose proof (scan_all_empty (salvage_budget size) (free_list w1) size Hsize
                (enough_budget size)) as Hempty.
  split; [split|].
  - intros [w' Hthrow]. rewrite Hthrow in Hres.
    destruct (Z.eqb_spec p 0) as [Hz|Hnz]; [|discriminate].
    split; [exact Hz|]. apply Hempty.
    destruct (scan _ _ size) as [bytes block| | |]; try discriminate;
      [|reflexivity].
    destruct (adopt_block _ _ _ _); discriminate.
  - intros [Hz He]. rewrite Hz, Z.eqb_refl in Hres.
    apply Hempty in He. rewrite He in Hres. eexists. exact Hres.
  - intros i block q Hz Hi Hl Hb He Hq. rewrite Hz, Z.eqb_refl in Hres.
    destruct (scan_first (salvage_budget size) (free_list w1) size i block
                Hsize (enough_budget size) Hi Hl Hb He)
      as (bytes & Hscan & Hidx & Hbytes).
    rewrite Hscan in Hres. subst i.
    assert (Ht1 : table_ok (asked to_get w1)).
    { unfold table_ok in *. simpl. congruence. }
    pose proof (adopt_block_Ret (M_freelist_index bytes) block bytes q
                  (asked to_get w1)
                  ltac:(pose proof (M_freelist_index_range size Hsize); lia)
                  Ht1 Hb Hq) as Ha.
    rewrite Ha in Hres. revert Ha Hres.
    set (w3 := set_end_free _ _). intros Ha Hres.
    destruct (retry_after_salvage size 10 Hsize H10 fuel bytes block
                (asked to_get w1) w3 _ Hscan Ha) as (Hpb & _ & Hk & _).
    assert (Hku : served_blocks size 10 w3 <= 4096).
    { unfold served_blocks. rewrite Hpb. case_match; [lia|].
      unfold ESmallObjectBytes in *. Z.div_mod_to_equations. nia. }
    exists bytes, (served_blocks size 10 w3),
      (bumped size (served_blocks size 10 w3) w3).
    split; [exact Hres|].
    split; [exact Hk|]. split; [exact Hbytes|]. split; [reflexivity|].
    split; [reflexivity|]. split; [|reflexivity].
    simpl. f_equal. unfold mul64. apply wrap_small.
    unfold ESmallObjectBytes in *. nia.
Qed.

(** C10: for every [big > 4096], in every state, [allocate big] calls
    [std::malloc(big)] once and returns its result as it is, whatever it
    is: when the system allocator fails the caller receives the null
    pointer, and [allocate big] never throws.  [allocate] of a small
    request that needs a new pool region (empty pool, empty lists from its
    class up) when the system allocator fails throws [std::bad_alloc]: the
    two paths signal failure differently. *)
Theorem allocate_failure_signals fuel big small w :
  ESmallObjectBytes < big ->
  1 <= small <= ESmallObjectBytes ->
  (exists w',
     allocate fuel big w = Ret (Value (fst (sys_malloc big (sys w)))) w' /\
     sys w' = snd (sys_malloc big (sys w)) /\
     calls w' = Malloc big (fst (sys_malloc big (sys w))) :: calls w) /\
  (fst (sys_malloc big (sys w)) = 0 ->
   exists w', allocate fuel big w = Ret (Value 0) w') /\
  (forall w', allocate fuel big w <> Throw w') /\
  (sane w ->
   start_free w = end_free w ->
   empty_classes (free_list w) (M_freelist_index small) EFreeListsNumber ->
   fst (sys_malloc (bytes_to_get (mul64 (M_round_up small) 10) (heap_size w))
                   (sys w)) = 0 ->
   exists w', allocate (S fuel) small w = Throw w').
Proof.
  intros Hbig Hsmall. rewrite allocate_large by exact Hbig.
  split; [eexists; split; [reflexivity|]; split; reflexivity|].
  split; [intros ->; eexists; reflexivity|].
  split; [intros w'; discriminate|].
  intros [Ht Hh] Hpool He Hm2.
  destruct (refill_size small Hsmall) as (Hsize & Hneed & Hmul).
  assert (H10 : 1 <= 10) by lia.
  pose proof (M_freelist_index_range small Hsmall) as Hi.
  pose proof (pool_bytes_exhausted w Hpool) as Hpb.
  pose proof (size_le_need (M_round_up small) 10 Hsize H10 Hneed) as Hsn.
  unfold allocate. rewrite small_true by lia.
  erewrite bind_Ret;
    [|apply load_head_Ret; [apply He; lia | exact Hi]].
  rewrite Z.eqb_refl. unmonad. unfold bind at 1. unfold M_refill.
  unmonad. unfold bind at 1.
  rewrite M_chunk_alloc_grow by lia. rewrite Hpb, recycle_pool_empty.
  cbv zeta. rewrite Hm2, Z.eqb_refl.
  assert (Hscan : scan (salvage_budget (M_round_up small))
                    (free_list w) (M_round_up small) = AllEmpty).
  { apply scan_all_empty; [exact Hsize | apply enough_budget |].
    rewrite M_round_up_same_class by exact Hsmall. exact He. }
  simpl free_list. rewrite Hscan. eexists. reflexivity.
Qed.


Lemma empty_classes_initial s from to :
  0 <= from -> to <= EFreeListsNumber ->
  empty_classes (free_list (initial_world s)) from to.
Proof.
  intros Hf Ht i Hi. unfold initial_world. cbn [free_list].
  apply lookup_replicate_2. unfold EFreeListsNumber in *. lia.
Qed.

End PoolFacts.


Lemma large_requests_bypass_pool_witness :
  (exists w',
     allocate 0 5000 fresh_world =
       Ret (Value (fst (sys_malloc 5000 (sys fresh_world)))) w' /\
     pool_state w' = pool_state fresh_world /\
     next_of w' = next_of fresh_world /\
     sys w' = snd (sys_malloc 5000 (sys fresh_world)) /\
     calls w' =
       Malloc 5000 (fst (sys_malloc 5000 (sys fresh_world)))
         :: calls fresh_world) /\
  (exists w',
     deallocate 65536 5000 fresh_world = Ret tt w' /\
     pool_state w' = pool_state fresh_world /\
     next_of w' = next_of fresh_world /\
     sys w' = sys_free 65536 (sys fresh_world) /\
     calls w' = Free 65536 :: calls fresh_world).
Proof.
  apply (large_requests_bypass_pool 0 5000 65536 fresh_world).
  unfold ESmallObjectBytes. lia.
Defined.

Lemma deallocate_allocate_round_trip_witness :
  free_list one_block_world !! Z.to_nat (M_freelist_index 200) = Some 0 /\
  allocate 1 200 one_block_world =
    Ret (Value 4096) (set_start_free (4096 + 208) one_block_world) /\
  exists w1,
    deallocate 4096 200 (set_start_free (4096 + 208) one_block_world) =
      Ret tt w1 /\
    free_list w1 !! Z.to_nat (M_freelist_index 200) = Some 4096 /\
    allocate 0 200 w1 = Ret (Value 4096) w1.
Proof.
  assert (Ha : allocate 1 200 one_block_world =
               Ret (Value 4096) (set_start_free (4096 + 208) one_block_world))
    by reflexivity.
  split; [reflexivity|]. split; [exact Ha|].
  apply (deallocate_allocate_round_trip 1 0 200 4096 one_block_world
           (set_start_free (4096 + 208) one_block_world)).
  - unfold ESmallObjectBytes. lia.
  - split; [reflexivity | unfold heap_ok; simpl; lia].
  - exact Ha.
  - lia.
Defined.

(** C2, on the code: [allocate(200)] in a fresh world whose system serves
    the request rounds to 208 bytes (class 20), asks the system once, for
    4160 bytes, and chains the blocks 2 to 10 of the new region onto list
    20, which then holds exactly 9 blocks.  The first block, at 65536, is
    not handed to the caller: control leaves [M_refill] at its closing
    brace, without a [return] statement, and [allocate] has no value to
    return. *)
Theorem refill_200_returns_no_block :
  exists w,
    allocate 2 200 fresh_world = Ret NoValue w /\
    M_round_up 200 = 208 /\
    M_freelist_index 200 = 20 /\
    calls w = [Malloc 4160 65536] /\
    start_free w = 65536 + 2080 /\
    end_free w = 65536 + 4160 /\
    blocks_of 9 w 20 =
      Some [67408; 67200; 66992; 66784; 66576; 66368; 66160; 65952; 65744].
Proof.
  eexists. split; [vm_compute; reflexivity|].
  repeat split; vm_compute; reflexivity.
Qed.

(** C1, on the code: after a refill stocked the list of class 0 with 9
    blocks, [allocate(8)] returns the head 65608 and leaves the list as it
    was (the world is unchanged); a second [allocate(8)] with no
    [deallocate] between the two returns the same block 65608. *)
Theorem allocate_twice_same_block :
  exists w,
    allocate 2 8 fresh_world = Ret NoValue w /\
    blocks_of 9 w 0 =
      Some [65608; 65600; 65592; 65584; 65576; 65568; 65560; 65552; 65544] /\
    allocate 2 8 w = Ret (Value 65608) w /\
    (allocate 2 8 ;; allocate 2 8) w = Ret (Value 65608) w.
Proof.
  eexists. split; [vm_compute; reflexivity|].
  repeat split; vm_compute; reflexivity.
Qed.

Lemma M_chunk_alloc_terminates_witness :
  1 <= 200 <= ESmallObjectBytes /\
  heap_ok fresh_world /\
  M_chunk_alloc 3 (M_round_up 200) 10 fresh_world =
    M_chunk_alloc 2 (M_round_up 200) 10 fresh_world /\
  M_chunk_alloc 2 (M_round_up 200) 10 fresh_world <> OutOfFuel /\
  mul64 (M_round_up 200) 10 <=
    bytes_to_get (mul64 (M_round_up 200) 10) (heap_size fresh_world).
Proof.
  assert (H1 : 1 <= 200 <= ESmallObjectBytes) by (unfold ESmallObjectBytes; lia).
  assert (H2 : heap_ok fresh_world) by (unfold heap_ok; simpl; lia).
  split; [exact H1|]. split; [exact H2|].
  destruct (M_chunk_alloc_terminates 1 200 fresh_world H1 H2) as (Ha & Hb & Hc & _).
  auto.
Defined.

Lemma pool_growth_request_size_witness :
  1 <= 200 <= ESmallObjectBytes /\
  heap_ok fresh_world /\
  allocate 2 200 fresh_world <> OutOfFuel /\
  (if 2 * (M_round_up 200 * 10) + M_round_up (heap_size fresh_world / 16)
      <=? 1048576
   then 2 * (M_round_up 200 * 10) + M_round_up (heap_size fresh_world / 16)
   else Z.max (M_round_up 200 * 10) 1048576)
  <= Z.max (M_round_up 200 * 10) 1048576.
Proof.
  assert (H1 : 1 <= 200 <= ESmallObjectBytes) by (unfold ESmallObjectBytes; lia).
  assert (H2 : heap_ok fresh_world) by (unfold heap_ok; simpl; lia).
  split; [exact H1|]. split; [exact H2|].
  destruct (pool_growth_request_size 0 200 fresh_world H1 H2) as (Ha & Hb & _).
  split; [exact Ha | exact Hb].
Defined.

Lemma M_chunk_alloc_out_of_memory_witness :
  1 <= 200 <= ESmallObjectBytes /\
  heap_ok salvage_world /\ table_ok salvage_world /\
  pool_bytes salvage_world < M_round_up 200 /\
  recycle_pool (pool_bytes salvage_world) salvage_world
    = Ret tt salvage_world /\
  ((exists w',
      M_chunk_alloc 2 (M_round_up 200) 10 salvage_world = Throw w') <->
   fst (sys_malloc
          (bytes_to_get (mul64 (M_round_up 200) 10) (heap_size salvage_world))
          (sys salvage_world)) = 0 /\
   empty_classes (free_list salvage_world)
                 (M_freelist_index (M_round_up 200)) EFreeListsNumber) /\
  (exists bytes k w',
     M_chunk_alloc 2 (M_round_up 200) 10 salvage_world = Ret (8192, k) w' /\
     1 <= k /\
     M_round_up 200 <= bytes <= ESmallObjectBytes /\
     M_freelist_index bytes = 30 /\
     free_list w' = <[Z.to_nat 30 := 0]> (free_list salvage_world) /\
     start_free w' = 8192 + M_round_up 200 * k /\
     end_free w' = 8192 + bytes).
Proof.
  assert (H1 : 1 <= 200 <= ESmallObjectBytes) by (unfold ESmallObjectBytes; lia).
  assert (H2 : heap_ok salvage_world) by (unfold heap_ok; simpl; lia).
  assert (H3 : table_ok salvage_world) by reflexivity.
  assert (H4 : pool_bytes salvage_world < M_round_up 200) by reflexivity.
  assert (H5 : recycle_pool (pool_bytes salvage_world) salvage_world
               = Ret tt salvage_world) by reflexivity.
  repeat (split; [assumption|]).
  destruct (M_chunk_alloc_out_of_memory 0 200 salvage_world salvage_world
              H1 H2 H3 H4 H5) as [Hiff Hsalvage].
  split; [exact Hiff|].
  apply (Hsalvage 30 8192 0).
  - reflexivity.
  - change (M_freelist_index (M_round_up 200)) with 20.
    unfold EFreeListsNumber. lia.
  - reflexivity.
  - lia.
  - change (M_freelist_index (M_round_up 200)) with 20.
    intros i Hi. unfold salvage_world, pushed. cbn [free_list set_free_list].
    rewrite list_lookup_insert_ne by lia.
    apply lookup_replicate_2. unfold EFreeListsNumber. lia.
  - reflexivity.
Defined.

Lemma allocate_failure_signals_witness :
  (exists w',
     allocate 0 5000 fresh_world = Ret (Value 65536) w' /\
     calls w' = [Malloc 5000 65536]) /\
  (exists w',
     allocate 0 5000 starved_world = Ret (Value 0) w' /\
     calls w' = [Malloc 5000 0]) /\
  (forall w', allocate 0 5000 starved_world <> Throw w') /\
  (exists w', allocate 1 200 starved_world = Throw w').
Proof.
  assert (Hbig : ESmallObjectBytes < 5000) by (unfold ESmallObjectBytes; lia).
  assert (Hsmall : 1 <= 200 <= ESmallObjectBytes)
    by (unfold ESmallObjectBytes; lia).
  destruct (allocate_failure_signals 0 5000 200 fresh_world Hbig Hsmall)
    as ((w1 & Hr1 & _ & Hc1) & _).
  destruct (allocate_failure_signals 0 5000 200 starved_world Hbig Hsmall)
    as ((w2 & Hr2 & _ & Hc2) & _ & Hnt & Hthrow).
  split; [exists w1; split; [exact Hr1 | exact Hc1]|].
  split; [exists w2; split; [exact Hr2 | exact Hc2]|].
  split; [exact Hnt|].
  apply Hthrow.
  - split; [reflexivity | unfold heap_ok; simpl; lia].
  - reflexivity.
  - apply empty_classes_initial; [vm_compute; discriminate | lia].
  - reflexivity.
Defined.

(** ** The example worlds, run through the code *)

Example stocked_world_deallocate :
  deallocate 4096 8 starved_world = Ret tt stocked_world.
Proof. reflexivity. Qed.

Example salvage_world_deallocate :
  deallocate 8192 480 starved_world = Ret tt salvage_world.
Proof. reflexivity. Qed.

Example salvage_world_allocate :
  exists w, allocate 2 200 salvage_world = Ret NoValue w /\
            calls w = [Malloc 4160 0] /\
            start_free w = 8192 + 2 * 208 /\ end_free w = 8192 + 464 /\
            blocks_of 1 w 30 = Some [] /\
            blocks_of 1 w 20 = Some [8192 + 208].
Proof. eexists. split; [vm_compute; reflexivity|]. repeat split. Qed.


(** * Further properties of the code

    ** The size classes *)

Lemma M_round_up_fixed bytes :
  1 <= bytes <= ESmallObjectBytes ->
  M_round_up bytes = bytes <-> bytes mod M_align bytes = 0.
Proof.
  intros Hb. unfold ESmallObjectBytes in Hb.
  rewrite M_round_up_div by lia. pose proof (M_align_range bytes) as Ha.
  set (a := M_align bytes) in *. clearbody a. split; intros H.
  - rewrite <- H at 1. rewrite Z.mul_comm. apply Z.mod_mul. lia.
  - apply Z.div_exact in H; [|lia].
    replace (bytes + a - 1) with (a - 1 + bytes / a * a) by lia.
    rewrite Z.div_add by lia. rewrite (Z.div_small (a - 1)) by lia. lia.
Qed.

(** X1: for a size of 1 to 4096 bytes [M_round_up] returns the least
    multiple of the alignment of the size that is not below it: the result
    is less than one alignment above the size, rounding it again changes
    nothing, and the size is kept exactly when it is a multiple of its
    alignment. *)
Theorem M_round_up_tight bytes :
  1 <= bytes <= ESmallObjectBytes ->
  bytes <= M_round_up bytes < bytes + M_align bytes /\
  M_round_up (M_round_up bytes) = M_round_up bytes /\
  (M_round_up bytes = bytes <-> bytes mod M_align bytes = 0).
Proof.
  intros Hb. split; [apply M_round_up_bounds; unfold ESmallObjectBytes in Hb; lia|].
  split; [apply M_round_up_idem; exact Hb|].
  apply M_round_up_fixed. exact Hb.
Qed.

Lemma M_round_up_tight_witness :
  200 <= M_round_up 200 < 200 + M_align 200 /\
  M_round_up (M_round_up 200) = M_round_up 200 /\
  (M_round_up 200 = 200 <-> 200 mod M_align 200 = 0).
Proof. apply (M_round_up_tight 200). unfold ESmallObjectBytes. lia. Defined.

(** X2: two sizes of 1 to 4096 bytes share a free list exactly when they
    round up to the same block size. *)
Theorem same_class_same_block_size a b :
  1 <= a <= ESmallObjectBytes -> 1 <= b <= ESmallObjectBytes ->
  M_freelist_index a = M_freelist_index b <-> M_round_up a = M_round_up b.
Proof.
  unfold ESmallObjectBytes. intros Ha Hb. plain_classes.
  repeat case_match; try lia; split; intros Heq; Z.div_mod_to_equations; lia.
Qed.

Lemma same_class_same_block_size_witness :
  M_freelist_index 193 = M_freelist_index 208 <->
  M_round_up 193 = M_round_up 208.
Proof.
  apply (same_class_same_block_size 193 208); unfold ESmallObjectBytes; lia.
Defined.

(** X3: each of the 56 free lists is the list of some size of 1 to 4096
    bytes that is its own block size. *)
Theorem every_class_used i :
  0 <= i < EFreeListsNumber ->
  exists n,
    1 <= n <= ESmallObjectBytes /\
    M_freelist_index n = i /\ M_round_up n = n.
Proof.
  unfold EFreeListsNumber, ESmallObjectBytes. intros Hi.
  exists (if i <=? 15 then 8 * (i + 1)
          else if i <=? 23 then 128 + 16 * (i - 15)
          else if i <=? 31 then 256 + 32 * (i - 23)
          else if i <=? 39 then 512 + 64 * (i - 31)
          else if i <=? 47 then 1024 + 128 * (i - 39)
          else 2048 + 256 * (i - 47)).
  repeat case_match; (split; [lia|]); plain_classes;
    repeat case_match; try lia; split; Z.div_mod_to_equations; lia.
Qed.

Lemma every_class_used_witness :
  exists n,
    1 <= n <= ESmallObjectBytes /\
    M_freelist_index n = 55 /\ M_round_up n = n.
Proof. apply (every_class_used 55). unfold EFreeListsNumber. lia. Defined.


(** X4: every block size for a request of 1 to 4096 bytes is a multiple
    of 8, and of the alignment of the request, between 8 and 4096: a free
    block has room for the [next] pointer of [FreeList]. *)
Theorem block_holds_next_pointer n :
  1 <= n <= ESmallObjectBytes ->
  8 <= M_round_up n <= ESmallObjectBytes /\
  M_round_up n mod 8 = 0 /\
  M_round_up n mod M_align n = 0.
Proof.
  unfold ESmallObjectBytes. intros Hn.
  pose proof (M_round_up_small n Hn) as Hr.
  pose proof (M_align_range n) as Ha.
  assert (Hm : M_round_up n mod M_align n = 0).
  { rewrite M_round_up_div by lia. rewrite Z.mul_comm. apply Z.mod_mul. lia. }
  assert (H8 : M_round_up n mod 8 = 0).
  { rewrite M_round_up_plain by exact Hn.
    repeat case_match; Z.div_mod_to_equations; lia. }
  split; [|split; assumption].
  split; [|lia]. Z.div_mod_to_equations. lia.
Qed.

Lemma block_holds_next_pointer_witness :
  8 <= M_round_up 1 <= ESmallObjectBytes /\
  M_round_up 1 mod 8 = 0 /\
  M_round_up 1 mod M_align 1 = 0.
Proof. apply (block_holds_next_pointer 1). unfold ESmallObjectBytes. lia. Defined.


(** ** The pool and the lists *)

Section MorePoolFacts.
Context `{SA : SystemAllocator}.

Ltac unmonad := unfold mbind, M_bind, mret, M_ret in *.

Lemma served_blocks_range size nblock w :
  1 <= size -> 1 <= nblock -> 0 <= size * nblock < 2 ^ 64 ->
  size <= pool_bytes w ->
  1 <= served_blocks size nblock w <= nblock /\
  size * served_blocks size nblock w <= pool_bytes w.
Proof.
  intros Hs Hn Hneed Hp. unfold served_blocks.
  assert (Hm : mul64 size nblock = size * nblock)
    by (unfold mul64; apply wrap_small; lia).
  rewrite Hm. destruct (Z.leb_spec (size * nblock) (pool_bytes w)) as [Hf|Hf].
  - lia.
  - assert (pool_bytes w / size < nblock).
    { apply Z.div_lt_upper_bound; lia. }
    assert (1 <= pool_bytes w / size).
    { apply Z.div_le_lower_bound; lia. }
    pose proof (Z.mul_div_le (pool_bytes w) size ltac:(lia)). lia.
Qed.

Section Outcomes.
Variables (size nblock : Z) (w : world).
Hypothesis Hsize : 1 <= size <= ESmallObjectBytes.
Hypothesis Hnblock : 1 <= nblock.
Hypothesis Hneed : size * nblock < 2 ^ 62.
Hypothesis Hheap : heap_ok w.

Lemma served_post fuel w0 :
  size <= pool_bytes w0 ->
  match M_chunk_alloc (S fuel) size nblock w0 with
  | Ret (c, k) w' =>
      1 <= k <= nblock /\ c = start_free w0 /\
      start_free w' = c + size * k /\ end_free w' = end_free w0 /\
      size * k <= pool_bytes w0 /\
      calls w' = calls w0 /\ heap_size w' = heap_size w0
  | _ => False
  end.
Proof.
  intros Hp. rewrite M_chunk_alloc_served by lia.
  unfold ESmallObjectBytes in *.
  destruct (served_blocks_range size nblock w0 ltac:(lia) Hnblock
              ltac:(nia) Hp) as [Hk Hle].
  split; [exact Hk|]. split; [reflexivity|].
  split.
  { simpl. f_equal. unfold mul64. apply wrap_small.
    pose proof (wrap_range (end_free w0 - start_free w0)) as Hr.
    unfold pool_bytes in Hle. nia. }
  repeat split. exact Hle.
Qed.

Lemma M_chunk_alloc_post fuel :
  chunk_post size nblock w (M_chunk_alloc fuel size nblock w).
Proof.
  unfold chunk_post. destruct fuel as [|fuel]; [exact I|].
  destruct (Z_le_gt_dec size (pool_bytes w)) as [Hp|Hp].
  { pose proof (served_post fuel w Hp) as Hs.
    destruct (M_chunk_alloc (S fuel) size nblock w) as [[c k] w'| | |];
      try contradiction.
    destruct Hs as (Hk & Hc & Hst & He & Hle & Hcalls & Hh).
    split; [exact Hk|]. split; [exact Hst|]. left. auto 10. }
  pose proof (size_le_need size nblock Hsize Hnblock Hneed) as Hsn.
  pose proof (need_range size nblock Hsize Hnblock Hneed) as Hnr.
  rewrite M_chunk_alloc_grow by lia.
  destruct (recycle_pool (pool_bytes w) w) as [[] w1| | |] eqn:Hrec;
    try exact I.
  2: { destruct (recycle_pool_outcome (pool_bytes w) w) as [[w1' H]|H];
       congruence. }
  apply recycle_pool_inv in Hrec. destruct Hrec as (_ & _ & Hh & _ & Hc & _).
  cbv zeta. rewrite <- Hh, <- Hc.
  set (to_get := bytes_to_get (mul64 size nblock) (heap_size w1)).
  fold (asked to_get w1). fold (installed to_get w1).
  pose proof (bytes_to_get_bounds (mul64 size nblock) (heap_size w1) Hnr
                ltac:(rewrite Hh; exact Hheap)) as [[Hge _] Hlt].
  fold to_get in Hge, Hlt.
  destruct (Z.eqb_spec (fst (sys_malloc to_get (sys w1))) 0) as [Hz|Hnz].
  - destruct (scan _ _ size) as [bytes block| | |] eqn:Hscan; try exact I.
    + destruct (adopt_block_outcome (M_freelist_index bytes) block bytes
                  (asked to_get w1)) as [[w3 Ha]|Ha]; rewrite Ha; [|exact I].
      destruct fuel as [|fuel]; [exact I|].
      destruct (retry_after_salvage size nblock Hsize Hnblock fuel bytes block
                  (asked to_get w1) w3 _ Hscan Ha) as (Hpb & Hb & _ & _).
      pose proof (served_post fuel w3 ltac:(lia)) as Hs.
      destruct (M_chunk_alloc (S fuel) size nblock w3) as [[c k] w'| | |];
        try contradiction.
      destruct Hs as (Hk & Hcs & Hst & He & Hle & Hcalls & Hh3).
      apply scan_stocked in Hscan; [|exact Hsize].
      destruct Hscan as (_ & _ & Hb0 & _).
      apply adopt_block_inv in Ha.
      destruct Ha as (Hs3 & He3 & Hh3' & _ & Hc3).
      split; [exact Hk|]. split; [exact Hst|]. right. right.
      split; [congruence|]. split.
      { exists bytes. split; [lia|]. rewrite He, He3. congruence. }
      split.
      { rewrite Hcalls, Hc3. unfold asked. simpl. rewrite Hz. reflexivity. }
      rewrite Hh3, Hh3'. reflexivity.
    + split; [simpl; exact Hz|]. split; [reflexivity|].
      split; [reflexivity|]. simpl. rewrite Hz. reflexivity.
  - destruct fuel as [|fuel]; [exact I|].
    pose proof (retry_after_growth size nblock w Hsize Hnblock Hneed Hheap
                  fuel w1 Hh) as Hr.
    cbv zeta in Hr. fold to_get in Hr. rewrite Hr.
    split; [lia|]. split.
    { simpl. f_equal. apply need_plain; assumption. }
    right. left. split; [exact Hnz|]. split; [reflexivity|].
    split; [reflexivity|]. split; reflexivity.
Qed.

End Outcomes.

(** *** [deallocate], [reallocate] and the last block of the pool *)

(** X5: for a size of zero, the index computed by [M_freelist_index]
    wraps to [2^64 - 1]: [allocate(0)] and [deallocate(p, 0)] index
    [free_list] outside its 56 entries. *)
Theorem zero_request_outside_table fuel p w :
  M_freelist_index 0 = 2 ^ 64 - 1 /\
  allocate fuel 0 w = Undef /\
  deallocate p 0 w = Undef.
Proof.
  assert (H0 : M_freelist_index 0 = 2 ^ 64 - 1) by reflexivity.
  split; [exact H0|].
  assert (Hl : load_head (M_freelist_index 0) w = Undef).
  { unfold load_head. rewrite H0. reflexivity. }
  split.
  - unfold allocate. rewrite small_true by (unfold ESmallObjectBytes; lia).
    unmonad. unfold bind. rewrite Hl. reflexivity.
  - unfold deallocate. rewrite small_true by (unfold ESmallObjectBytes; lia).
    unmonad. unfold bind. rewrite Hl. reflexivity.
Qed.

Lemma blocks_of_pushed p idx w k old :
  p <> 0 -> (Z.to_nat idx < length (free_list w))%nat ->
  blocks_of k w idx = Some old -> p ∉ old ->
  blocks_of (S k) (pushed idx p w) idx = Some (p :: old).
Proof.
  intros Hp Hlen Hb Hnot. unfold blocks_of in *.
  destruct (free_list w !! Z.to_nat idx) as [h|] eqn:Hh; [|discriminate].
  unfold pushed. cbn [free_list next_of set_free_list set_next_of].
  rewrite list_lookup_insert_eq by exact Hlen.
  cbn [chain]. destruct (Z.eqb_spec p 0) as [|_]; [contradiction|].
  rewrite lookup_insert_eq, Hh. change (default 0 (Some h)) with h.
  rewrite (chain_insert_fresh k (next_of w) h old p h Hb Hnot). reflexivity.
Qed.

(** X6: [deallocate] of a small block pushes it at the front of the list
    of its class: the list reads as the block followed by its former
    blocks, the other list heads, the pool bounds and the heap size are
    kept and the system is not called. *)
Theorem deallocate_pushes_front p n w k old :
  1 <= n <= ESmallObjectBytes -> p <> 0 -> table_ok w ->
  blocks_of k w (M_freelist_index n) = Some old -> p ∉ old ->
  exists w',
    deallocate p n w = Ret tt w' /\
    blocks_of (S k) w' (M_freelist_index n) = Some (p :: old) /\
    (forall i, i <> Z.to_nat (M_freelist_index n) ->
               free_list w' !! i = free_list w !! i) /\
    start_free w' = start_free w /\ end_free w' = end_free w /\
    heap_size w' = heap_size w /\ sys w' = sys w /\ calls w' = calls w.
Proof.
  intros Hn Hp Ht Hb Hnot.
  pose proof (M_freelist_index_range n Hn) as Hi.
  exists (pushed (M_freelist_index n) p w).
  split; [apply deallocate_small; assumption|].
  split.
  { apply blocks_of_pushed; try assumption.
    unfold table_ok in Ht. unfold EFreeListsNumber in *. lia. }
  split; [|repeat split].
  intros i Hne. unfold pushed. cbn [free_list set_free_list set_next_of].
  apply list_lookup_insert_ne. auto.
Qed.

Lemma chain_self_loop k (m : gmap Z Z) p :
  p <> 0 -> m !! p = Some p -> chain k m p = None.
Proof.
  intros Hp Hm. induction k as [|k IH]; simpl;
    destruct (Z.eqb_spec p 0) as [|_]; try contradiction; [reflexivity|].
  rewrite Hm, IH. reflexivity.
Qed.

(** X7: two [deallocate] calls in a row on the same small block leave
    the block as the head of its list with its [next] word pointing to
    itself: the list is a cycle, a walk along it never reaches the null
    pointer, and every [allocate] of that class returns the block. *)
Theorem double_deallocate_cycle p n w :
  1 <= n <= ESmallObjectBytes -> p <> 0 -> table_ok w ->
  exists w',
    (deallocate p n ;; deallocate p n) w = Ret tt w' /\
    free_list w' !! Z.to_nat (M_freelist_index n) = Some p /\
    next_of w' !! p = Some p /\
    (forall k, blocks_of k w' (M_freelist_index n) = None) /\
    (forall fuel, allocate fuel n w' = Ret (Value p) w').
Proof.
  intros Hn Hp Ht.
  pose proof (M_freelist_index_range n Hn) as Hi.
  assert (Hlen : (Z.to_nat (M_freelist_index n) < length (free_list w))%nat).
  { unfold table_ok in Ht. unfold EFreeListsNumber in *. lia. }
  set (idx := M_freelist_index n) in *.
  set (w1 := pushed idx p w).
  assert (Ht1 : table_ok w1).
  { unfold table_ok in *. subst w1. unfold pushed. simpl.
    rewrite length_insert. exact Ht. }
  assert (Hh1 : free_list w1 !! Z.to_nat idx = Some p).
  { subst w1. unfold pushed. simpl. apply list_lookup_insert_eq. exact Hlen. }
  exists (pushed idx p w1).
  assert (Hhead : free_list (pushed idx p w1) !! Z.to_nat idx = Some p).
  { unfold pushed. simpl. apply list_lookup_insert_eq.
    rewrite length_insert. exact Hlen. }
  assert (Hnext : next_of (pushed idx p w1) !! p = Some p).
  { unfold pushed at 1. cbn [next_of set_free_list set_next_of].
    rewrite Hh1. cbn [default]. apply lookup_insert_eq. }
  split.
  { erewrite bind_Ret; [|apply deallocate_small; assumption].
    apply deallocate_small; assumption. }
  split; [exact Hhead|]. split; [exact Hnext|]. split.
  - intros k. unfold blocks_of. rewrite Hhead.
    apply chain_self_loop; assumption.
  - intros fuel. eapply allocate_stocked; eassumption.
Qed.

(** X8: [reallocate] between two small sizes of the same class returns
    the pointer it was given, after pushing the block on the list of the
    class, where it stays. *)
Theorem reallocate_same_class fuel p old_size new_size w :
  1 <= old_size <= ESmallObjectBytes ->
  1 <= new_size <= ESmallObjectBytes ->
  M_freelist_index old_size = M_freelist_index new_size ->
  p <> 0 -> table_ok w ->
  reallocate fuel p old_size new_size w =
    Ret (Value p) (pushed (M_freelist_index old_size) p w).
Proof.
  intros Ho Hn Hsame Hp Ht. unfold reallocate.
  pose proof (M_freelist_index_range old_size Ho) as Hi.
  erewrite bind_Ret; [|apply deallocate_small; assumption].
  eapply allocate_stocked; [exact Hn| |exact Hp|].
  - rewrite <- Hsame. unfold pushed. simpl. apply list_lookup_insert_eq.
    unfold table_ok in Ht. unfold EFreeListsNumber in *. lia.
  - unfold pushed. simpl. apply lookup_insert_eq.
Qed.

(** X9: [reallocate] between two sizes above 4096 bytes calls
    [std::free] on the block and then [std::malloc] for the new size, and
    returns the result of the latter; the pool and the lists are
    untouched. *)
Theorem reallocate_large fuel p old_size new_size w :
  ESmallObjectBytes < old_size -> ESmallObjectBytes < new_size ->
  exists w',
    reallocate fuel p old_size new_size w =
      Ret (Value (fst (sys_malloc new_size (sys_free p (sys w))))) w' /\
    calls w' =
      Malloc new_size (fst (sys_malloc new_size (sys_free p (sys w))))
        :: Free p :: calls w /\
    pool_state w' = pool_state w /\ next_of w' = next_of w.
Proof.
  intros Ho Hn. unfold reallocate, deallocate.
  rewrite (proj2 (Z.ltb_lt _ _) Ho).
  erewrite bind_Ret; [|reflexivity].
  rewrite allocate_large by exact Hn. eexists. split; [reflexivity|].
  repeat split.
Qed.

(** X10: when the list of the class is empty and the pool holds at least
    one block of the rounded size and less than two, [allocate] returns
    the start of the pool and moves [start_free] one block up; nothing
    else changes. *)
Theorem allocate_last_block fuel n w :
  1 <= n <= ESmallObjectBytes ->
  free_list w !! Z.to_nat (M_freelist_index n) = Some 0 ->
  M_round_up n <= pool_bytes w < 2 * M_round_up n ->
  allocate (S fuel) n w =
    Ret (Value (start_free w))
        (set_start_free (start_free w + M_round_up n) w).
Proof.
  intros Hn Hh Hp. destruct (refill_size n Hn) as (Hsize & Hneed & Hmul).
  pose proof (M_freelist_index_range n Hn) as Hi.
  unfold allocate. rewrite small_true by lia.
  erewrite bind_Ret; [|apply load_head_Ret; eassumption].
  rewrite Z.eqb_refl. unfold M_refill.
  assert (Hq : pool_bytes w / M_round_up n = 1).
  { symmetry. apply (Z.div_unique _ _ 1 (pool_bytes w - M_round_up n)); lia. }
  assert (Hc : M_chunk_alloc (S fuel) (M_round_up n) 10 w =
               Ret (start_free w, 1)
                   (set_start_free (start_free w + M_round_up n) w)).
  { rewrite M_chunk_alloc_partial by lia. rewrite Hq.
    unfold mul64. rewrite Z.mul_1_r.
    rewrite wrap_small by (unfold ESmallObjectBytes in *; lia). reflexivity. }
  unmonad. unfold bind. rewrite Hc. reflexivity.
Qed.

(** *** The pool bounds and [heap_size] across [allocate] *)

Lemma pool_bytes_ok w : pool_ok w -> pool_bytes w = end_free w - start_free w.
Proof. intros H. unfold pool_bytes. apply wrap_small. exact H. Qed.

Lemma chain_blocks_frame k index n next_block w u w' :
  chain_blocks k index n next_block w = Ret u w' ->
  start_free w' = start_free w /\ end_free w' = end_free w /\
  heap_size w' = heap_size w /\ sys w' = sys w /\ calls w' = calls w.
Proof.
  revert next_block w. induction k as [|k IH]; intros next_block w; simpl.
  - intros H. unmonad. unfold ret in H. simplify_eq. auto.
  - unmonad. unfold bind at 1 2 3. unfold load_head, store_next, store_head.
    repeat case_match; try discriminate; simplify_eq; simpl in *.
    intros H. apply IH in H. exact H.
Qed.

Lemma M_refill_frame fuel n w r w' :
  M_refill fuel n w = Ret r w' ->
  exists c nblock w1,
    M_chunk_alloc fuel n 10 w = Ret (c, nblock) w1 /\
    start_free w' = start_free w1 /\ end_free w' = end_free w1 /\
    heap_size w' = heap_size w1 /\ calls w' = calls w1.
Proof.
  unfold M_refill. unmonad. unfold bind at 1.
  destruct (M_chunk_alloc fuel n 10 w) as [[c nblock] w1| | |]; try discriminate.
  simpl. destruct (nblock =? 1).
  - unfold ret. intros H. simplify_eq. do 3 eexists. split; [reflexivity|]. auto.
  - unfold bind, ret.
    destruct (chain_blocks _ _ _ _ w1) as [u w2| | |] eqn:Hc;
      try discriminate.
    intros H. simplify_eq. apply chain_blocks_frame in Hc.
    destruct Hc as (H1 & H2 & H3 & _ & H5).
    do 3 eexists. split; [reflexivity|]. auto.
Qed.

(** How a small [allocate] ends, through [M_refill] or from its list. *)
Lemma allocate_small_inv f n w :
  1 <= n <= ESmallObjectBytes ->
  match allocate f n w with
  | Ret r w' =>
      w' = w \/
      exists c k w1,
        M_chunk_alloc f (M_round_up n) 10 w = Ret (c, k) w1 /\
        start_free w' = start_free w1 /\ end_free w' = end_free w1 /\
        heap_size w' = heap_size w1 /\ calls w' = calls w1
  | Throw w' => M_chunk_alloc f (M_round_up n) 10 w = Throw w'
  | Undef => True
  | OutOfFuel => True
  end.
Proof.
  intros Hn. unfold allocate. rewrite small_true by lia.
  unmonad. unfold bind at 1.
  destruct (load_head (M_freelist_index n) w) as [h w0|w0| |] eqn:Hl;
    try exact I.
  2: { exfalso. revert Hl. unfold load_head. repeat case_match; discriminate. }
  apply load_head_inv in Hl. destruct Hl as (-> & _).
  destruct (h =? 0).
  - unfold bind.
    destruct (M_refill f (M_round_up n) w) as [r w2|w2| |] eqn:Hr;
      try exact I.
    + unfold ret. right. apply M_refill_frame in Hr. exact Hr.
    + apply M_refill_throw_inv. exact Hr.
  - unfold bind, load_next, ret.
    repeat case_match; try exact I; simplify_eq; auto; discriminate.
Qed.

(** X11: a small [allocate] calls the system at most once, through
    [std::malloc]; [heap_size] grows by the size asked, modulo [2^64],
    when that call succeeds and is unchanged otherwise. *)
Theorem heap_size_counts_pool_growth f n w w' :
  1 <= n <= ESmallObjectBytes -> heap_ok w ->
  world_of (allocate f n w) = Some w' ->
  (calls w' = calls w /\ heap_size w' = heap_size w) \/
  exists sz p,
    calls w' = Malloc sz p :: calls w /\
    heap_size w' = if p =? 0 then heap_size w else add64 (heap_size w) sz.
Proof.
  intros Hn Hh Hw. destruct (refill_size n Hn) as (Hsize & Hneed & _).
  pose proof (allocate_small_inv f n w Hn) as Ha.
  pose proof (M_chunk_alloc_post (M_round_up n) 10 w Hsize ltac:(lia) Hneed Hh f)
    as Hpost. unfold chunk_post in Hpost.
  destruct (allocate f n w) as [r w2|w2| |]; simpl in Hw; simplify_eq.
  - destruct Ha as [->|(c & k & w1 & Hc & _ & _ & Hh1 & Hc1)]; [left; auto|].
    rewrite Hc in Hpost. rewrite Hh1, Hc1.
    destruct Hpost as (_ & _ & [H|[H|H]]).
    + left. tauto.
    + right. destruct H as (Hnz & _ & _ & -> & ->). do 2 eexists.
      split; [reflexivity|]. apply Z.eqb_neq in Hnz. rewrite Hnz. reflexivity.
    + right. destruct H as (_ & _ & -> & ->). do 2 eexists.
      split; [reflexivity|]. reflexivity.
  - rewrite Ha in Hpost. destruct Hpost as (_ & _ & -> & ->).
    right. do 2 eexists. split; [reflexivity|]. reflexivity.
Qed.

(** X12: when a small [allocate] throws [std::bad_alloc], the pool is
    left empty with both bounds null, [heap_size] is unchanged and the
    last system call is a [std::malloc] that returned null. *)
Theorem out_of_memory_empties_pool f n w w' :
  1 <= n <= ESmallObjectBytes -> heap_ok w ->
  allocate f n w = Throw w' ->
  start_free w' = 0 /\ end_free w' = 0 /\ pool_bytes w' = 0 /\
  heap_size w' = heap_size w /\
  exists sz, calls w' = Malloc sz 0 :: calls w.
Proof.
  intros Hn Hh Ht. destruct (refill_size n Hn) as (Hsize & Hneed & _).
  pose proof (allocate_small_inv f n w Hn) as Ha. rewrite Ht in Ha.
  pose proof (M_chunk_alloc_post (M_round_up n) 10 w Hsize ltac:(lia) Hneed Hh f)
    as Hpost. unfold chunk_post in Hpost. rewrite Ha in Hpost.
  destruct Hpost as (Hs & He & Hhs & Hc).
  split; [exact Hs|]. split; [exact He|].
  split; [unfold pool_bytes; rewrite Hs, He; reflexivity|].
  split; [exact Hhs|]. eexists. exact Hc.
Qed.

(** X13: when [M_chunk_alloc] returns, it serves 1 to 10 blocks,
    [start_free] lies directly behind the blocks served and not beyond
    [end_free]. *)
Theorem M_chunk_alloc_carves_inside_pool f n w c k w' :
  1 <= n <= ESmallObjectBytes -> heap_ok w -> pool_ok w ->
  M_chunk_alloc f (M_round_up n) 10 w = Ret (c, k) w' ->
  1 <= k <= 10 /\
  start_free w' = c + M_round_up n * k /\
  start_free w' <= end_free w' /\ pool_ok w'.
Proof.
  intros Hn Hh Hp Hc. destruct (refill_size n Hn) as (Hsize & Hneed & Hmul).
  pose proof (M_chunk_alloc_post (M_round_up n) 10 w Hsize ltac:(lia) Hneed Hh f)
    as Hpost. unfold chunk_post in Hpost. rewrite Hc in Hpost.
  destruct Hpost as (Hk & Hst & Hcases).
  split; [exact Hk|]. split; [exact Hst|].
  assert (Hgoal : 0 <= end_free w' - start_free w' < 2 ^ 64);
    [|split; [lia | exact Hgoal]].
  unfold ESmallObjectBytes in *.
  destruct Hcases as [H|[H|H]].
  - destruct H as (-> & He & Hle & _). rewrite pool_bytes_ok in Hle by exact Hp.
    unfold pool_ok in Hp. lia.
  - destruct H as (_ & -> & He & _).
    pose proof (bytes_to_get_bounds (mul64 (M_round_up n) 10) (heap_size w)
                  ltac:(rewrite Hmul; lia) Hh) as [[Hge _] Hlt].
    lia.
  - destruct H as (_ & (bytes & Hb & He) & _). lia.
Qed.

Lemma bytes_to_get_double need heap :
  0 <= need <= 2 ^ 19 -> 0 <= heap < 2 ^ 64 ->
  2 * need <= bytes_to_get need heap.
Proof.
  intros Hn Hh. rewrite bytes_to_get_plain by lia.
  assert (Hq : 0 <= heap / 16 < 2 ^ 60) by (Z.div_mod_to_equations; lia).
  pose proof (M_round_up_bounds (heap / 16) ltac:(lia)) as Hr.
  unfold MAX_CHUNK. case_match; lia.
Qed.

(** X14: when [M_chunk_alloc] obtained a new region from the system,
    it served all 10 blocks from its start, the region asked is at least
    twice the 10 blocks, and what is left of it serves the next request
    for 10 blocks of the same size with no call to the system. *)
Theorem pool_growth_covers_next_refill f f' n w c k w' sz p :
  1 <= n <= ESmallObjectBytes -> heap_ok w ->
  M_chunk_alloc f (M_round_up n) 10 w = Ret (c, k) w' ->
  calls w' = Malloc sz p :: calls w -> p <> 0 ->
  c = p /\ k = 10 /\
  sz = bytes_to_get (mul64 (M_round_up n) 10) (heap_size w) /\
  2 * (M_round_up n * 10) <= sz /\
  M_round_up n * 10 <= pool_bytes w' /\
  M_chunk_alloc (S f') (M_round_up n) 10 w' =
    Ret (start_free w', 10) (bumped (M_round_up n) 10 w').
Proof.
  intros Hn Hh Hc Hcalls Hp.
  destruct (refill_size n Hn) as (Hsize & Hneed & Hmul).
  pose proof (M_chunk_alloc_post (M_round_up n) 10 w Hsize ltac:(lia) Hneed Hh f)
    as Hpost. unfold chunk_post in Hpost. rewrite Hc in Hpost.
  destruct Hpost as (Hk & Hst & Hcases).
  unfold ESmallObjectBytes in *.
  pose proof (bytes_to_get_double (mul64 (M_round_up n) 10) (heap_size w)
                ltac:(rewrite Hmul; lia) Hh) as Hd.
  pose proof (bytes_to_get_bounds (mul64 (M_round_up n) 10) (heap_size w)
                ltac:(rewrite Hmul; lia) Hh) as [_ Hlt].
  destruct Hcases as [H|[H|H]].
  - destruct H as (_ & _ & _ & Hsame & _). rewrite Hsame in Hcalls.
    exfalso. apply (f_equal (@length _)) in Hcalls. simpl in Hcalls. lia.
  - destruct H as (Hnz & -> & He & Hcg & _). rewrite Hcg in Hcalls.
    injection Hcalls as <- <-.
    assert (Hpb : M_round_up n * 10 <= pool_bytes w').
    { unfold pool_bytes. rewrite He, Hst.
      rewrite wrap_small; rewrite Hmul in *; lia. }
    repeat split; try (rewrite Hmul in *; lia); try exact Hpb.
    rewrite M_chunk_alloc_fits by (rewrite Hmul; exact Hpb). reflexivity.
  - destruct H as (_ & _ & Hcs & _). rewrite Hcs in Hcalls.
    injection Hcalls as _ <-. contradiction.
Qed.

(** X15: when the list of the class is empty and the pool holds two
    blocks of the rounded size or more, [allocate] carves [k] blocks,
    [2 <= k <= 10], and chains the blocks 2 to [k] on the list, the last
    carved first; the first block is on no list and is not returned
    either. *)
Theorem allocate_refill_chains fuel n w :
  1 <= n <= ESmallObjectBytes -> table_ok w ->
  free_list w !! Z.to_nat (M_freelist_index n) = Some 0 ->
  0 < start_free w ->
  2 * M_round_up n <= pool_bytes w ->
  let size := M_round_up n in
  let k := served_blocks size 10 w in
  exists w',
    allocate (S fuel) n w = Ret NoValue w' /\
    2 <= k <= 10 /\
    blocks_of (Z.to_nat (k - 1)) w' (M_freelist_index n) =
      Some (rev (carved (Z.to_nat (k - 1)) size (start_free w + size))) /\
    (start_free w ∉ carved (Z.to_nat (k - 1)) size (start_free w + size)) /\
    start_free w' = start_free w + size * k /\
    end_free w' = end_free w /\ calls w' = calls w.
Proof.
  intros Hn Ht Hh Hs Hp size k.
  destruct (refill_size n Hn) as (Hsize & Hneed & Hmul).
  fold size in Hsize, Hneed, Hmul, Hp.
  pose proof (M_freelist_index_range n Hn) as Hi.
  unfold ESmallObjectBytes in *.
  destruct (served_blocks_range size 10 w ltac:(lia) ltac:(lia) ltac:(lia)
              ltac:(lia)) as [Hk Hle]. fold k in Hk, Hle.
  assert (Hk2 : 2 <= k).
  { subst k. unfold served_blocks. rewrite Hmul. case_match; [lia|].
    apply Z.div_le_lower_bound; lia. }
  assert (Hc : M_chunk_alloc (S fuel) size 10 w =
               Ret (start_free w, k) (bumped size k w)).
  { apply M_chunk_alloc_served. lia. }
  assert (Hidx : M_freelist_index size = M_freelist_index n)
    by (apply M_round_up_same_class; unfold ESmallObjectBytes; lia).
  destruct (chain_blocks_stock (Z.to_nat (k - 1)) (M_freelist_index size) size
              (start_free w + size) (bumped size k w) 0%nat 0 [])
    as (w' & Hr & Hbl & _ & Hst & He & _ & _ & Hcalls & _).
  { rewrite Hidx. exact Hi. }
  { exact Ht. }
  { lia. }
  { lia. }
  { rewrite Hidx. exact Hh. }
  { reflexivity. }
  { constructor. }
  exists w'. split.
  { unfold allocate. rewrite small_true by (unfold ESmallObjectBytes; lia).
    erewrite bind_Ret; [|apply load_head_Ret; eassumption].
    rewrite Z.eqb_refl. fold size. unfold M_refill.
    unmonad. unfold bind at 1 2. rewrite Hc. simpl.
    destruct (Z.eqb_spec k 1) as [|_]; [lia|].
    unfold bind. rewrite Hr. reflexivity. }
  split; [lia|]. split.
  { rewrite Hidx in Hbl. simpl in Hbl. rewrite app_nil_r in Hbl. exact Hbl. }
  split.
  { generalize (Z.to_nat (k - 1)). intros j.
    assert (Hge : forall j b, start_free w < b -> start_free w ∉ carved j size b).
    { clear -Hsize. induction j as [|j IH]; intros b Hb; simpl.
      - apply not_elem_of_nil.
      - apply not_elem_of_cons. split; [lia|]. apply IH. lia. }
    apply Hge. lia. }
  split.
  { rewrite Hst. simpl. f_equal. unfold mul64. apply wrap_small. nia. }
  split; [rewrite He; reflexivity | rewrite Hcalls; reflexivity].
Qed.

(** X16: a pool that holds at least one block serves whole blocks from
    its start without calling the system: as many as asked or, when it
    holds fewer, as many as fit, and what is then left is smaller than one
    block. *)
Theorem pool_serves_whole_blocks fuel size nblock w :
  1 <= size <= ESmallObjectBytes -> 1 <= nblock -> size * nblock < 2 ^ 62 ->
  pool_ok w -> size <= pool_bytes w ->
  exists k w',
    M_chunk_alloc (S fuel) size nblock w = Ret (start_free w, k) w' /\
    k = Z.min nblock (pool_bytes w / size) /\
    pool_bytes w' = pool_bytes w - size * k /\
    (k < nblock -> pool_bytes w' < size) /\
    end_free w' = end_free w /\ free_list w' = free_list w /\
    calls w' = calls w.
Proof.
  intros Hsize Hnblock Hneed Hok Hp.
  rewrite M_chunk_alloc_served by lia.
  unfold ESmallObjectBytes in *.
  destruct (served_blocks_range size nblock w ltac:(lia) Hnblock
              ltac:(nia) Hp) as [Hk Hle].
  pose proof (pool_bytes_ok w Hok) as Hpe.
  pose proof (wrap_range (end_free w - start_free w)) as Hr.
  fold (pool_bytes w) in Hr.
  assert (Hm : mul64 size nblock = size * nblock)
    by (unfold mul64; apply wrap_small; nia).
  assert (Hmin : served_blocks size nblock w =
                 Z.min nblock (pool_bytes w / size)).
  { unfold served_blocks. rewrite Hm.
    destruct (Z.leb_spec (size * nblock) (pool_bytes w)) as [Hf|Hf].
    - assert (nblock <= pool_bytes w / size)
        by (apply Z.div_le_lower_bound; lia).
      lia.
    - assert (pool_bytes w / size < nblock)
        by (apply Z.div_lt_upper_bound; lia).
      lia. }
  assert (Hmk : mul64 size (served_blocks size nblock w) =
                size * served_blocks size nblock w)
    by (unfold mul64; apply wrap_small; nia).
  assert (Hleft : pool_bytes (bumped size (served_blocks size nblock w) w) =
                  pool_bytes w - size * served_blocks size nblock w).
  { unfold pool_bytes at 1. unfold bumped. simpl. rewrite Hmk.
    rewrite wrap_small by lia. lia. }
  eexists _, _. split; [reflexivity|]. split; [exact Hmin|].
  split; [exact Hleft|]. split; [|repeat split].
  intros Hlt. rewrite Hleft, Hmin.
  assert (Hq : Z.min nblock (pool_bytes w / size) = pool_bytes w / size)
    by lia.
  rewrite Hq. pose proof (Z.mod_pos_bound (pool_bytes w) size ltac:(lia)).
  pose proof (Z.div_mod (pool_bytes w) size ltac:(lia)). lia.
Qed.

(** *** The invariant [safe] and the ways a call ends *)

Lemma linked_insert (m : gmap Z Z) a v p :
  linked m p -> linked (<[a := v]> m) p.
Proof.
  intros [->|[x Hx]]; [left; reflexivity|]. right.
  destruct (decide (a = p)) as [->|Hne].
  - rewrite lookup_insert_eq. eauto.
  - rewrite lookup_insert_ne by exact Hne. eauto.
Qed.

Lemma lists_ok_frame w w' :
  free_list w' = free_list w -> next_of w' = next_of w ->
  lists_ok w -> lists_ok w'.
Proof.
  unfold lists_ok, table_ok. intros -> ->. auto.
Qed.

Lemma lists_ok_head idx w h :
  lists_ok w -> free_list w !! Z.to_nat idx = Some h ->
  0 <= h /\ linked (next_of w) h.
Proof.
  intros (_ & Hf & _) Hl. rewrite Forall_forall in Hf.
  apply Hf. apply list_elem_of_lookup. eauto.
Qed.

Lemma lists_ok_next w block q :
  lists_ok w -> next_of w !! block = Some q ->
  0 <= q /\ linked (next_of w) q.
Proof. intros (_ & _ & Hm) Hl. exact (Hm block q Hl). Qed.

Lemma lists_ok_pushed idx p w :
  0 <= idx < EFreeListsNumber -> 0 < p ->
  lists_ok w -> lists_ok (pushed idx p w).
Proof.
  intros Hi Hp Hok. pose proof Hok as (Ht & Hf & Hm).
  destruct (table_lookup idx w Hi Ht) as [h Hh].
  destruct (lists_ok_head idx w h Hok Hh) as [Hh0 Hhl].
  unfold pushed. rewrite Hh. change (default 0 (Some h)) with h.
  split; [|split].
  - unfold table_ok in *. simpl. rewrite length_insert. exact Ht.
  - simpl. apply Forall_insert.
    + eapply Forall_impl; [exact Hf|]. simpl. intros x [Hx Hl].
      split; [exact Hx | apply linked_insert; exact Hl].
    + split; [lia|]. right. rewrite lookup_insert_eq. eauto.
  - simpl. apply map_Forall_insert_2.
    + split; [exact Hh0 | apply linked_insert; exact Hhl].
    + eapply map_Forall_impl; [exact Hm|]. simpl. intros a q [Hq Hl].
      split; [exact Hq | apply linked_insert; exact Hl].
Qed.

(** The three statements that push a block on a list. *)
Lemma push_Ret idx p w :
  0 <= idx < EFreeListsNumber -> table_ok w -> p <> 0 ->
  (head ← load_head idx; store_next p head ;; store_head idx p) w =
    Ret tt (pushed idx p w).
Proof.
  intros Hi Ht Hp. destruct (table_lookup idx w Hi Ht) as [h Hh].
  erewrite bind_Ret; [|apply load_head_Ret; eassumption].
  erewrite bind_Ret; [|apply store_next_Ret; exact Hp].
  rewrite store_head_Ret; [|exact Hi|exact Ht].
  unfold pushed. rewrite Hh. reflexivity.
Qed.

Lemma recycle_pool_safe size w :
  1 <= size <= ESmallObjectBytes -> pool_bytes w < size ->
  lists_ok w -> region_ok w ->
  exists w1,
    recycle_pool (pool_bytes w) w = Ret tt w1 /\ lists_ok w1 /\
    start_free w1 = start_free w /\ end_free w1 = end_free w /\
    heap_size w1 = heap_size w /\ sys w1 = sys w /\ calls w1 = calls w.
Proof.
  intros Hs Hp Hl (Hs0 & Hr & Hz). unfold recycle_pool.
  destruct (Z.ltb_spec 0 (pool_bytes w)) as [Hpos|Hzero].
  - assert (Hst : 0 < start_free w).
    { destruct (Z.eq_dec (start_free w) 0) as [E|E]; [|lia].
      exfalso. specialize (Hz E).
      assert (pool_bytes w = 0)
        by (unfold pool_bytes; rewrite E, Hz; reflexivity).
      lia. }
    pose proof (M_freelist_index_range (pool_bytes w)
                  ltac:(unfold ESmallObjectBytes in *; lia)) as Hi.
    exists (pushed (M_freelist_index (pool_bytes w)) (start_free w) w).
    split.
    { cbv zeta. unmonad. unfold bind at 1. unfold gets.
      apply push_Ret; [exact Hi | apply Hl | lia]. }
    split; [apply lists_ok_pushed; assumption|]. repeat split.
  - exists w. split; [reflexivity|]. split; [exact Hl|]. repeat split.
Qed.

Lemma scan_entry k fl bytes :
  length fl = Z.to_nat EFreeListsNumber ->
  1 <= bytes -> scan k fl bytes <> NoEntry.
Proof.
  intros Hlen. revert bytes. induction k as [|k IH]; intros bytes Hb;
    [discriminate|].
  destruct (Z_le_gt_dec bytes ESmallObjectBytes) as [Hle|Hgt].
  - rewrite scan_unfold by lia.
    assert (Hi : 0 <= M_freelist_index bytes < EFreeListsNumber)
      by (apply M_freelist_index_range; unfold ESmallObjectBytes in *; lia).
    destruct (fl !! Z.to_nat (M_freelist_index bytes)) as [b|] eqn:E.
    + destruct (b =? 0); [|discriminate]. apply IH.
      pose proof (M_align_range bytes). lia.
    + apply lookup_ge_None in E. unfold EFreeListsNumber in *. lia.
  - rewrite scan_above by lia. discriminate.
Qed.

Lemma chain_blocks_safe k : forall index n b w,
  0 <= index < EFreeListsNumber -> 0 < n -> 0 < b -> lists_ok w ->
  exists w',
    chain_blocks k index n b w = Ret tt w' /\ lists_ok w' /\
    start_free w' = start_free w /\ end_free w' = end_free w /\
    heap_size w' = heap_size w /\ sys w' = sys w /\ calls w' = calls w.
Proof.
  induction k as [|k IH]; intros index n b w Hi Hn Hb Hl.
  - exists w. split; [reflexivity|]. auto 10.
  - assert (Hstep : chain_blocks (S k) index n b w =
                    chain_blocks k index n (b + n) (pushed index b w)).
    { simpl. unmonad.
      pose proof (push_Ret index b w Hi ltac:(apply Hl) ltac:(lia)) as Hp.
      unmonad. unfold bind in *.
      destruct (load_head index w) as [h w0| | |]; try discriminate.
      destruct (store_next b h w0) as [[] w1| | |]; try discriminate.
      destruct (store_head index b w1) as [[] w2| | |]; try discriminate.
      injection Hp as ->. reflexivity. }
    rewrite Hstep.
    destruct (IH index n (b + n) (pushed index b w) Hi Hn ltac:(lia)
                 (lists_ok_pushed index b w Hi Hb Hl))
      as (w' & Hr & Hl' & H1 & H2 & H3 & H4 & H5).
    exists w'. split; [exact Hr|]. split; [exact Hl'|]. auto 10.
Qed.


Lemma safe_bumped size k w :
  safe w -> 1 <= size -> 1 <= k -> size * k <= pool_bytes w ->
  safe (bumped size k w) /\ 0 < start_free w.
Proof.
  intros (Hl & (Hs0 & Hr & Hz) & Hh) Hs Hk Hle.
  assert (Hpb : pool_bytes w = end_free w - start_free w)
    by (unfold pool_bytes; apply wrap_small; exact Hr).
  assert (Hm : mul64 size k = size * k)
    by (unfold mul64; apply wrap_small; nia).
  assert (Hst : 0 < start_free w).
  { destruct (Z.eq_dec (start_free w) 0) as [E|E]; [|lia].
    specialize (Hz E). nia. }
  split; [|exact Hst]. unfold bumped. split; [|split].
  - eapply lists_ok_frame; [| |exact Hl]; reflexivity.
  - unfold region_ok. simpl. rewrite Hm. nia.
  - exact Hh.
Qed.

Lemma safe_served size nblock w :
  1 <= size <= ESmallObjectBytes -> 1 <= nblock -> size * nblock < 2 ^ 62 ->
  safe w -> size <= pool_bytes w ->
  safe (bumped size (served_blocks size nblock w) w) /\
  0 < start_free w /\ 1 <= served_blocks size nblock w.
Proof.
  intros Hsize Hnblock Hneed Hsafe Hp.
  destruct (served_blocks_range size nblock w ltac:(lia) Hnblock
              ltac:(unfold ESmallObjectBytes in *; nia) Hp) as [Hk Hle].
  destruct (safe_bumped size (served_blocks size nblock w) w Hsafe
              ltac:(lia) ltac:(lia) Hle) as [Hs' Hst].
  split; [exact Hs'|]. split; [exact Hst|lia].
Qed.

(** A call with room for one retry returns or throws, and keeps [safe]. *)
Lemma M_chunk_alloc_safe size nblock w fuel :
  1 <= size <= ESmallObjectBytes -> 1 <= nblock -> size * nblock < 2 ^ 62 ->
  honest_system -> safe w ->
  match M_chunk_alloc (S (S fuel)) size nblock w with
  | Ret (c, k) w' => safe w' /\ 0 < c /\ 1 <= k
  | Throw w' => safe w'
  | Undef => False
  | OutOfFuel => False
  end.
Proof.
  intros Hsize Hnblock Hneed Hhon Hsafe.
  pose proof Hsafe as (Hl & Hreg & Hh).
  destruct (Z_le_gt_dec size (pool_bytes w)) as [Hp|Hp].
  { rewrite M_chunk_alloc_served by lia.
    apply safe_served; assumption. }
  destruct (recycle_pool_safe size w Hsize ltac:(lia) Hl Hreg)
    as (w1 & Hrec & Hl1 & Hs1 & He1 & Hh1 & Hsys1 & Hc1).
  rewrite (M_chunk_alloc_resolved size nblock w Hsize Hnblock Hneed Hh
             fuel w1 ltac:(lia) Hrec).
  cbv zeta.
  set (to_get := bytes_to_get (mul64 size nblock) (heap_size w1)).
  pose proof (need_range size nblock Hsize Hnblock Hneed) as Hnr.
  pose proof (bytes_to_get_bounds (mul64 size nblock) (heap_size w1) Hnr
                ltac:(rewrite Hh1; exact Hh)) as [[Hge _] Hlt].
  fold to_get in Hge, Hlt.
  pose proof (size_le_need size nblock Hsize Hnblock Hneed) as Hsn.
  pose proof (Hhon to_get (sys w1)) as Hpos.
  destruct (Z.eqb_spec (fst (sys_malloc to_get (sys w1))) 0) as [Hz|Hnz].
  - destruct (scan _ _ size) as [bytes block| | |] eqn:Hscan.
    + destruct (scan_stocked _ _ _ _ _ Hsize Hscan) as (Hb & Hlk & Hb0 & _).
      pose proof (M_freelist_index_range bytes
                    ltac:(unfold ESmallObjectBytes in *; lia)) as Hi.
      destruct (lists_ok_head _ w1 block Hl1 Hlk) as [Hbp [Hbz|[q Hq]]];
        [contradiction|].
      rewrite (adopt_block_Ret (M_freelist_index bytes) block bytes q
                 (asked to_get w1) Hi ltac:(apply Hl1) Hb0 Hq).
      set (w3 := set_end_free _ _).
      assert (Hs3 : safe w3).
      { destruct (lists_ok_next w1 block q Hl1 Hq) as [Hq0 Hql].
        destruct Hl1 as (Ht1 & Hf1 & Hm1).
        split; [|split].
        - split; [|split].
          + unfold table_ok in *. simpl. rewrite length_insert. exact Ht1.
          + simpl. apply Forall_insert; [exact Hf1|]. split; assumption.
          + exact Hm1.
        - unfold region_ok. simpl. unfold ESmallObjectBytes in *. lia.
        - unfold heap_ok in *. simpl. rewrite Hh1. exact Hh. }
      assert (Hp3 : pool_bytes w3 = bytes).
      { unfold pool_bytes. simpl.
        replace (block + bytes - block) with bytes by lia.
        apply wrap_small. unfold ESmallObjectBytes in *. lia. }
      destruct (safe_served size nblock w3 Hsize Hnblock Hneed Hs3
                  ltac:(lia)) as (Hs' & Hst & Hk).
      split; [exact Hs'|]. split; [|exact Hk]. simpl in Hst. exact Hst.
    + split; [|split].
      * eapply lists_ok_frame; [| |exact Hl1]; reflexivity.
      * unfold region_ok. simpl. rewrite Hz. lia.
      * unfold heap_ok in *. simpl. rewrite Hh1. exact Hh.
    + revert Hscan. apply scan_entry; [apply Hl1|lia].
    + revert Hscan. apply scan_enough; [lia|apply enough_budget].
  - assert (Hsi : safe (installed to_get w1)).
    { split; [|split].
      - eapply lists_ok_frame; [| |exact Hl1]; reflexivity.
      - unfold region_ok. simpl. lia.
      - unfold heap_ok. simpl. apply wrap_range. }
    destruct (safe_bumped size nblock (installed to_get w1) Hsi
                ltac:(lia) Hnblock) as [Hs' Hst].
    { rewrite pool_bytes_installed by lia.
      rewrite <- (need_plain size nblock Hsize Hnblock Hneed). exact Hge. }
    split; [exact Hs'|]. split; [simpl in Hst; exact Hst|exact Hnblock].
Qed.

Lemma M_refill_safe fuel n w :
  1 <= n <= ESmallObjectBytes -> honest_system -> safe w ->
  match M_refill (S (S fuel)) n w with
  | Ret (Value p) w' => safe w' /\ 0 < p
  | Ret NoValue w' =>
      safe w' /\
      exists c k w1,
        M_chunk_alloc (S (S fuel)) n 10 w = Ret (c, k) w1 /\ 2 <= k
  | Throw w' => safe w'
  | Undef => False
  | OutOfFuel => False
  end.
Proof.
  intros Hn Hhon Hsafe.
  pose proof (M_chunk_alloc_safe n 10 w fuel Hn ltac:(lia)
                ltac:(unfold ESmallObjectBytes in *; lia) Hhon Hsafe) as Hc.
  unfold M_refill. unmonad. unfold bind at 1.
  destruct (M_chunk_alloc (S (S fuel)) n 10 w) as [[c k] w'| | |] eqn:Hcall;
    try contradiction; [|exact Hc].
  destruct Hc as (Hs' & Hc0 & Hk). cbv zeta.
  change ((c, k).2) with k. change ((c, k).1) with c.
  destruct (Z.eqb_spec k 1) as [Hk1|Hk1].
  { split; [exact Hs' | exact Hc0]. }
  pose proof (M_freelist_index_range n Hn) as Hi.
  destruct Hs' as (Hl' & Hr' & Hh').
  destruct (chain_blocks_safe (Z.to_nat (k - 1)) (M_freelist_index n) n (c + n)
              w' Hi ltac:(lia) ltac:(lia) Hl')
    as (w'' & Hr & Hl'' & H1 & H2 & H3 & _).
  unfold bind. rewrite Hr. unfold ret.
  split.
  - split; [exact Hl''|]. split.
    + unfold region_ok. rewrite H1, H2. exact Hr'.
    + unfold heap_ok. rewrite H3. exact Hh'.
  - exists c, k, w'. split; [reflexivity | lia].
Qed.

Lemma safe_set_sys (s : sys_state) c w : safe w -> safe (set_sys s c w).
Proof.
  intros (Hl & Hr & Hh). split; [|split]; [|exact Hr|exact Hh].
  eapply lists_ok_frame; [| |exact Hl]; reflexivity.
Qed.

(** How [allocate] ends from a [safe] world: with a [return] statement,
    at the closing brace of [M_refill], or with [std::bad_alloc]. *)
Lemma allocate_safe fuel n w :
  honest_system -> safe w -> 1 <= n ->
  match allocate (S (S fuel)) n w with
  | Ret (Value p) w' => safe w' /\ (n <= ESmallObjectBytes -> 0 < p)
  | Ret NoValue w' =>
      safe w' /\ n <= ESmallObjectBytes /\
      free_list w !! Z.to_nat (M_freelist_index n) = Some 0 /\
      exists c k w1,
        M_chunk_alloc (S (S fuel)) (M_round_up n) 10 w = Ret (c, k) w1 /\
        2 <= k
  | Throw w' =>
      safe w' /\ n <= ESmallObjectBytes /\
      free_list w !! Z.to_nat (M_freelist_index n) = Some 0
  | Undef => False
  | OutOfFuel => False
  end.
Proof.
  intros Hhon Hsafe Hn. unfold allocate.
  destruct (Z.ltb_spec ESmallObjectBytes n) as [Hbig|Hsmall].
  { unmonad. unfold bind, malloc, ret.
    split; [apply safe_set_sys; exact Hsafe | lia]. }
  pose proof (M_freelist_index_range n ltac:(unfold ESmallObjectBytes in *; lia))
    as Hi.
  pose proof Hsafe as (Hl & _ & _).
  destruct (table_lookup _ w Hi ltac:(apply Hl)) as [h Hh].
  erewrite bind_Ret; [|apply load_head_Ret; eassumption].
  cbv zeta. destruct (Z.eqb_spec h 0) as [Hz|Hnz].
  - subst h.
    pose proof (M_round_up_small n ltac:(unfold ESmallObjectBytes in *; lia))
      as Hr.
    pose proof (M_refill_safe fuel (M_round_up n) w
                  ltac:(unfold ESmallObjectBytes in *; lia) Hhon Hsafe) as Hd.
    unmonad. unfold bind.
    destruct (M_refill (S (S fuel)) (M_round_up n) w) as [[p|] w'|w'| |];
      try contradiction; unfold ret.
    + destruct Hd as [Hs' Hp]. split; [exact Hs'|]. intros _. exact Hp.
    + destruct Hd as [Hs' Hk]. auto.
    + auto.
  - destruct (lists_ok_head _ w h Hl Hh) as [Hh0 [Hz|[q Hq]]]; [contradiction|].
    erewrite bind_Ret; [|apply load_next_Ret; eassumption].
    unmonad. unfold ret. split; [exact Hsafe|]. intros _. lia.
Qed.

Lemma deallocate_safe p n w :
  safe w -> (n <= ESmallObjectBytes -> 0 < p) -> 1 <= n ->
  exists w',
    deallocate p n w = Ret tt w' /\ safe w' /\
    heap_size w' = heap_size w /\
    start_free w' = start_free w /\ end_free w' = end_free w /\
    (n <= ESmallObjectBytes -> w' = pushed (M_freelist_index n) p w) /\
    (ESmallObjectBytes < n ->
     calls w' = Free p :: calls w /\
     free_list w' = free_list w /\ next_of w' = next_of w).
Proof.
  intros Hsafe Hp Hn. unfold deallocate.
  destruct (Z.ltb_spec ESmallObjectBytes n) as [Hbig|Hsmall].
  { unfold free. eexists. split; [reflexivity|].
    split; [apply safe_set_sys; exact Hsafe|].
    do 3 (split; [reflexivity|]).
    split; [intros Hle; lia | intros _; repeat split]. }
  pose proof (M_freelist_index_range n ltac:(unfold ESmallObjectBytes in *; lia))
    as Hi.
  pose proof Hsafe as (Hl & Hr & Hh). specialize (Hp Hsmall).
  cbv zeta. rewrite push_Ret; [|exact Hi|apply Hl|lia].
  eexists. split; [reflexivity|]. split.
  { split; [|split]; [|exact Hr|exact Hh]. apply lists_ok_pushed; assumption. }
  do 3 (split; [reflexivity|]).
  split; [intros _; reflexivity | intros Hgt; lia].
Qed.

(** X17: from a [safe] world, over a system whose [std::malloc] returns no
    negative address, [allocate] of a non-zero size, with room for one
    recursive call of [M_chunk_alloc], does not exceed that room, indexes
    no list outside the table, goes through no null pointer and reads no
    [next] word that was never written, and it leaves a [safe] world.  It
    ends in one of three ways: a [return] statement with a pointer, which
    is not null when the request is small; control reaching the closing
    brace of [M_refill] with no [return] statement, which is undefined
    behaviour in C++ and happens only for a small request whose list is
    empty when [M_chunk_alloc] serves two blocks or more; or
    [std::bad_alloc], only for a small request whose list is empty.
    [safe] speaks of the table and of the [next] words, not of who owns
    the memory behind a block. *)
Theorem allocate_outcomes fuel n w :
  honest_system -> safe w -> 1 <= n ->
  (exists p w',
     allocate (S (S fuel)) n w = Ret (Value p) w' /\ safe w' /\
     (n <= ESmallObjectBytes -> 0 < p))
  \/
  (exists w',
     allocate (S (S fuel)) n w = Ret NoValue w' /\ safe w' /\
     n <= ESmallObjectBytes /\
     free_list w !! Z.to_nat (M_freelist_index n) = Some 0 /\
     exists c k w1,
       M_chunk_alloc (S (S fuel)) (M_round_up n) 10 w = Ret (c, k) w1 /\
       2 <= k)
  \/
  (exists w',
     allocate (S (S fuel)) n w = Throw w' /\ safe w' /\
     n <= ESmallObjectBytes /\
     free_list w !! Z.to_nat (M_freelist_index n) = Some 0).
Proof.
  intros Hhon Hsafe Hn.
  pose proof (allocate_safe fuel n w Hhon Hsafe Hn) as H.
  destruct (allocate (S (S fuel)) n w) as [[p|] w1|w1| |]; try contradiction.
  - left. exists p, w1. split; [reflexivity | exact H].
  - right. left. exists w1. split; [reflexivity | exact H].
  - right. right. exists w1. split; [reflexivity | exact H].
Qed.

(** X18: a block that [allocate] returned from a [safe] world, over a
    system whose [std::malloc] returns no negative address, is given back
    by [deallocate] with the same size without a throw and in a [safe]
    world: a small block is pushed on the list of its class, with the
    index inside the table and no null pointer written through; a large
    one goes to [std::free] and leaves the lists as they are.  The pool
    bounds and [heap_size] are unchanged. *)
Theorem deallocate_after_allocate fuel n p w0 w :
  honest_system -> safe w0 -> 1 <= n ->
  allocate (S (S fuel)) n w0 = Ret (Value p) w ->
  exists w',
    deallocate p n w = Ret tt w' /\ safe w' /\
    heap_size w' = heap_size w /\
    start_free w' = start_free w /\ end_free w' = end_free w /\
    (n <= ESmallObjectBytes -> w' = pushed (M_freelist_index n) p w) /\
    (ESmallObjectBytes < n ->
     calls w' = Free p :: calls w /\
     free_list w' = free_list w /\ next_of w' = next_of w).
Proof.
  intros Hhon Hsafe Hn Ha.
  pose proof (allocate_safe fuel n w0 Hhon Hsafe Hn) as H.
  rewrite Ha in H. destruct H as [Hs Hp].
  apply deallocate_safe; assumption.
Qed.

(** X19: [reallocate] of a block that [allocate] returned from a [safe]
    world, over a system whose [std::malloc] returns no negative address,
    with the size it was allocated with and a non-zero new size, exceeds
    no room for one recursive call of [M_chunk_alloc], indexes no list
    outside the table, goes through no null pointer and reads no [next]
    word that was never written, and leaves a [safe] world.  It ends with
    a [return] statement and a pointer, not null when the new size is
    small; at the closing brace of [M_refill] with no [return] statement
    (undefined behaviour in C++), only when the new size is small; or with
    [std::bad_alloc], only when the new size is small. *)
Theorem reallocate_after_allocate fuel fuel' p old_size new_size w0 w :
  honest_system -> safe w0 -> 1 <= old_size -> 1 <= new_size ->
  allocate (S (S fuel)) old_size w0 = Ret (Value p) w ->
  (exists q w',
     reallocate (S (S fuel')) p old_size new_size w = Ret (Value q) w' /\
     safe w' /\ (new_size <= ESmallObjectBytes -> 0 < q))
  \/
  (exists w',
     reallocate (S (S fuel')) p old_size new_size w = Ret NoValue w' /\
     safe w' /\ new_size <= ESmallObjectBytes)
  \/
  (exists w',
     reallocate (S (S fuel')) p old_size new_size w = Throw w' /\
     safe w' /\ new_size <= ESmallObjectBytes).
Proof.
  intros Hhon Hsafe Ho Hn Ha.
  pose proof (allocate_safe fuel old_size w0 Hhon Hsafe Ho) as H0.
  rewrite Ha in H0. destruct H0 as [Hs Hp].
  destruct (deallocate_safe p old_size w Hs Hp Ho) as (w1 & Hd & Hs1 & _).
  assert (Hre : reallocate (S (S fuel')) p old_size new_size w =
                allocate (S (S fuel')) new_size w1).
  { unfold reallocate. unmonad. unfold bind at 1. rewrite Hd. reflexivity. }
  rewrite Hre.
  pose proof (allocate_safe fuel' new_size w1 Hhon Hs1 Hn) as H.
  destruct (allocate (S (S fuel')) new_size w1) as [[q|] w2|w2| |];
    try contradiction.
  - left. exists q, w2. split; [reflexivity | exact H].
  - right. left. exists w2. split; [reflexivity|].
    destruct H as (H1 & H2 & _). split; assumption.
  - right. right. exists w2. split; [reflexivity|].
    destruct H as (H1 & H2 & _). split; assumption.
Qed.

(** *** The remainder of the pool *)

Lemma recycle_pool_pushed w :
  0 < pool_bytes w <= ESmallObjectBytes -> table_ok w -> start_free w <> 0 ->
  recycle_pool (pool_bytes w) w =
    Ret tt (pushed (M_freelist_index (pool_bytes w)) (start_free w) w).
Proof.
  intros Hp Ht Hs. unfold recycle_pool.
  rewrite (proj2 (Z.ltb_lt _ _)) by lia.
  pose proof (M_freelist_index_range (pool_bytes w)
                ltac:(unfold ESmallObjectBytes in *; lia)) as Hi.
  cbv zeta. unmonad. unfold bind at 1. unfold gets.
  apply push_Ret; assumption.
Qed.

Lemma pushed_head idx p w :
  0 <= idx < EFreeListsNumber -> table_ok w ->
  free_list (pushed idx p w) !! Z.to_nat idx = Some p /\
  next_of (pushed idx p w) !! p =
    Some (default 0 (free_list w !! Z.to_nat idx)).
Proof.
  intros Hi Ht. unfold pushed. simpl. split.
  - apply list_lookup_insert_eq. unfold table_ok in Ht.
    unfold EFreeListsNumber in *. lia.
  - apply lookup_insert_eq.
Qed.


(** X21: when the pool holds fewer bytes than one block, its remainder is
    of the class of the request and the system has no memory to give, the
    remainder comes back from its list as a pool of [size] bytes: one
    block is served at the old [start_free] and [end_free] moves past the
    old end of the pool, though nothing was obtained from the system. *)
Theorem salvage_overruns_recycled_remainder fuel size nblock w :
  1 <= size <= ESmallObjectBytes -> 1 <= nblock -> size * nblock < 2 ^ 62 ->
  table_ok w -> heap_ok w -> pool_ok w -> start_free w <> 0 ->
  0 < pool_bytes w < size ->
  M_freelist_index (pool_bytes w) = M_freelist_index size ->
  fst (sys_malloc (bytes_to_get (mul64 size nblock) (heap_size w)) (sys w))
    = 0 ->
  exists w',
    M_chunk_alloc (S (S fuel)) size nblock w = Ret (start_free w, 1) w' /\
    start_free w' = start_free w + size /\
    end_free w' = start_free w + size /\
    end_free w < end_free w' /\
    free_list w' = free_list w /\
    heap_size w' = heap_size w.
Proof.
  intros Hsize Hnblock Hneed Ht Hh Hok Hs Hp Hcls Hz.
  assert (Hpb : 1 <= pool_bytes w <= 4096)
    by (unfold ESmallObjectBytes in *; lia).
  pose proof (M_freelist_index_range (pool_bytes w) Hpb) as Hi.
  pose proof (recycle_pool_pushed w ltac:(unfold ESmallObjectBytes in *; lia)
                Ht Hs) as Hrec.
  set (idx := M_freelist_index (pool_bytes w)) in *.
  set (w1 := pushed idx (start_free w) w) in *.
  pose proof (M_chunk_alloc_resolved size nblock w Hsize Hnblock Hneed Hh
                fuel w1 ltac:(lia) Hrec) as Hres.
  cbv zeta in Hres.
  change (heap_size w1) with (heap_size w) in Hres.
  change (sys w1) with (sys w) in Hres.
  set (to_get := bytes_to_get (mul64 size nblock) (heap_size w)) in *.
  rewrite Hz in Hres. change (0 =? 0) with true in Hres. cbv iota in Hres.
  destruct (pushed_head idx (start_free w) w Hi Ht) as [Hhead Hnext].
  fold w1 in Hhead, Hnext.
  assert (Hscan : scan (salvage_budget size) (free_list w1) size =
                  Stocked size (start_free w)).
  { unfold salvage_budget. rewrite scan_unfold by exact Hsize.
    rewrite <- Hcls, Hhead.
    destruct (Z.eqb_spec (start_free w) 0); [contradiction|reflexivity]. }
  rewrite Hscan in Hres.
  assert (Ht1 : table_ok (asked to_get w1)).
  { unfold table_ok in *. simpl. rewrite length_insert. exact Ht. }
  rewrite (adopt_block_Ret (M_freelist_index size) (start_free w) size _
             (asked to_get w1) ltac:(rewrite <- Hcls; exact Hi) Ht1 Hs Hnext)
    in Hres.
  revert Hres. set (w3 := set_end_free _ _). intros Hres.
  assert (Hp3 : pool_bytes w3 = size).
  { unfold pool_bytes. simpl.
    replace (start_free w + size - start_free w) with size by lia.
    apply wrap_small. unfold ESmallObjectBytes in *. lia. }
  assert (Hk : served_blocks size nblock w3 = 1).
  { unfold served_blocks. rewrite Hp3.
    rewrite (need_plain size nblock Hsize Hnblock Hneed).
    destruct (Z.leb_spec (size * nblock) size) as [Hle|Hgt].
    - nia.
    - apply Z.div_same. lia. }
  rewrite Hk in Hres.
  eexists. split; [exact Hres|].
  assert (Hm : mul64 size 1 = size).
  { unfold mul64. rewrite Z.mul_1_r. apply wrap_small.
    unfold ESmallObjectBytes in *. lia. }
  pose proof (pool_bytes_ok w Hok) as Hpe.
  destruct (table_lookup idx w Hi Ht) as [h Hlk].
  split; [simpl; rewrite Hm; reflexivity|].
  split; [reflexivity|]. split; [simpl; lia|].
  split; [|reflexivity].
  simpl. rewrite <- Hcls. fold idx. rewrite Hlk.
  change (default 0 (Some h)) with h.
  rewrite list_insert_insert_eq. apply list_insert_id. exact Hlk.
Qed.

End MorePoolFacts.

Lemma deallocate_pushes_front_witness :
  exists w',
    deallocate 8192 8 stocked_world = Ret tt w' /\
    blocks_of 2 w' (M_freelist_index 8) = Some [8192; 4096].
Proof.
  destruct (deallocate_pushes_front 8192 8 stocked_world 1 [4096])
    as (w' & H1 & H2 & _).
  - unfold ESmallObjectBytes. lia.
  - lia.
  - reflexivity.
  - reflexivity.
  - intros H. apply list_elem_of_singleton in H. lia.
  - exists w'. split; assumption.
Defined.

Lemma double_deallocate_cycle_witness :
  exists w',
    (deallocate 4096 8 ;; deallocate 4096 8) starved_world = Ret tt w' /\
    next_of w' !! 4096 = Some 4096 /\
    blocks_of 100 w' (M_freelist_index 8) = None.
Proof.
  destruct (double_deallocate_cycle 4096 8 starved_world)
    as (w' & H1 & _ & H2 & H3 & _).
  - unfold ESmallObjectBytes. lia.
  - lia.
  - reflexivity.
  - exists w'. auto.
Defined.

Lemma reallocate_same_class_witness :
  reallocate 0 4096 193 208 starved_world =
    Ret (Value 4096) (pushed (M_freelist_index 193) 4096 starved_world).
Proof.
  apply (reallocate_same_class 0 4096 193 208 starved_world).
  - unfold ESmallObjectBytes. lia.
  - unfold ESmallObjectBytes. lia.
  - reflexivity.
  - lia.
  - reflexivity.
Defined.

Lemma reallocate_large_witness :
  exists w',
    reallocate 0 65536 5000 6000 fresh_world =
      Ret (Value 65536) w' /\
    calls w' = [Malloc 6000 65536; Free 65536] /\
    pool_state w' = pool_state fresh_world.
Proof.
  destruct (reallocate_large 0 65536 5000 6000 fresh_world)
    as (w' & H1 & H2 & H3 & _).
  - unfold ESmallObjectBytes. lia.
  - unfold ESmallObjectBytes. lia.
  - exists w'. auto.
Defined.

Lemma allocate_last_block_witness :
  allocate 1 200 one_block_world =
    Ret (Value 4096) (set_start_free (4096 + 208) one_block_world).
Proof.
  apply (allocate_last_block 0 200 one_block_world).
  - unfold ESmallObjectBytes. lia.
  - reflexivity.
  - vm_compute. split; [discriminate | reflexivity].
Defined.

Lemma heap_size_counts_pool_growth_witness :
  exists w',
    world_of (allocate 2 200 fresh_world) = Some w' /\
    ((calls w' = calls fresh_world /\ heap_size w' = heap_size fresh_world) \/
     exists sz p,
       calls w' = Malloc sz p :: calls fresh_world /\
       heap_size w' = if p =? 0 then heap_size fresh_world
                      else add64 (heap_size fresh_world) sz).
Proof.
  destruct (world_of (allocate 2 200 fresh_world)) as [w'|] eqn:E;
    [|vm_compute in E; discriminate].
  exists w'. split; [reflexivity|].
  apply (heap_size_counts_pool_growth 2 200 fresh_world w');
    [unfold ESmallObjectBytes; lia | unfold heap_ok; simpl; lia | exact E].
Defined.

Lemma out_of_memory_empties_pool_witness :
  exists w',
    allocate 2 200 starved_world = Throw w' /\
    start_free w' = 0 /\ end_free w' = 0 /\ pool_bytes w' = 0 /\
    heap_size w' = heap_size starved_world /\
    exists sz, calls w' = Malloc sz 0 :: calls starved_world.
Proof.
  eexists. split; [vm_compute; reflexivity|].
  apply (out_of_memory_empties_pool 2 200 starved_world);
    [unfold ESmallObjectBytes; lia | unfold heap_ok; simpl; lia
    | vm_compute; reflexivity].
Defined.

Lemma M_chunk_alloc_carves_inside_pool_witness :
  exists c k w',
    M_chunk_alloc 2 (M_round_up 200) 10 fresh_world = Ret (c, k) w' /\
    1 <= k <= 10 /\
    start_free w' = c + M_round_up 200 * k /\
    start_free w' <= end_free w' /\ pool_ok w'.
Proof.
  eexists _, _, _. split; [vm_compute; reflexivity|].
  eapply (M_chunk_alloc_carves_inside_pool 2 200 fresh_world);
    [unfold ESmallObjectBytes; lia | unfold heap_ok; simpl; lia
    | unfold pool_ok; simpl; lia | vm_compute; reflexivity].
Defined.

Lemma pool_growth_covers_next_refill_witness :
  exists c k w' sz p,
    M_chunk_alloc 2 (M_round_up 200) 10 fresh_world = Ret (c, k) w' /\
    calls w' = Malloc sz p :: calls fresh_world /\ p <> 0 /\
    M_round_up 200 * 10 <= pool_bytes w' /\
    M_chunk_alloc 1 (M_round_up 200) 10 w' =
      Ret (start_free w', 10) (bumped (M_round_up 200) 10 w').
Proof.
  eexists _, _, _, _, _. split; [vm_compute; reflexivity|].
  split; [reflexivity|]. split; [discriminate|].
  eapply (pool_growth_covers_next_refill 2 0 200 fresh_world);
    [unfold ESmallObjectBytes; lia | unfold heap_ok; simpl; lia
    | vm_compute; reflexivity | reflexivity | discriminate].
Defined.

Lemma allocate_refill_chains_witness :
  exists w',
    allocate 1 200 ten_block_world = Ret NoValue w' /\
    2 <= served_blocks (M_round_up 200) 10 ten_block_world <= 10 /\
    start_free w' =
      start_free ten_block_world +
      M_round_up 200 * served_blocks (M_round_up 200) 10 ten_block_world.
Proof.
  destruct (allocate_refill_chains 0 200 ten_block_world)
    as (w' & H1 & H2 & _ & _ & H3 & _).
  - unfold ESmallObjectBytes. lia.
  - reflexivity.
  - reflexivity.
  - simpl. lia.
  - vm_compute. discriminate.
  - exists w'. auto.
Defined.

Lemma natural_arena_honest : @honest_system natural_arena.
Proof.
  intros n [a b]. simpl. unfold arena_malloc. simpl.
  destruct (n <=? Z.of_N b - Z.of_N a); simpl; lia.
Qed.

Lemma natural_block_world_safe : safe natural_block_world.
Proof.
  split; [|split].
  - split; [reflexivity|]. split.
    + unfold natural_block_world. cbn [free_list next_of].
      apply Forall_replicate. split; [lia|left; reflexivity].
    + unfold natural_block_world. cbn [next_of]. apply map_Forall_empty.
  - unfold region_ok. simpl. lia.
  - unfold heap_ok. simpl. lia.
Qed.

Lemma allocate_outcomes_witness :
  exists w',
    allocate 2 200 natural_block_world = Ret (Value 4096) w' /\ safe w'.
Proof.
  destruct (allocate_outcomes 0 200 natural_block_world natural_arena_honest
              natural_block_world_safe ltac:(lia))
    as [(p & w' & Ha & Hs & _)|[(w' & Ha & _)|(w' & Ha & _)]];
    try (vm_compute in Ha; discriminate).
  exists w'. split; [|exact Hs]. rewrite Ha. f_equal. f_equal.
  vm_compute in Ha. injection Ha as <- _. reflexivity.
Defined.

Lemma deallocate_after_allocate_witness :
  exists w',
    deallocate 4096 200
      (set_start_free (4096 + 208) natural_block_world) = Ret tt w' /\
    safe w' /\
    free_list w' !! Z.to_nat (M_freelist_index 200) = Some 4096.
Proof.
  destruct (deallocate_after_allocate 0 200 4096 natural_block_world
              (set_start_free (4096 + 208) natural_block_world)
              natural_arena_honest natural_block_world_safe ltac:(lia)
              ltac:(reflexivity))
    as (w' & Hd & Hs & _ & _ & _ & Hpush & _).
  exists w'. split; [exact Hd|]. split; [exact Hs|].
  rewrite (Hpush ltac:(unfold ESmallObjectBytes; lia)). reflexivity.
Defined.

Lemma reallocate_after_allocate_witness :
  exists w',
    reallocate 2 4096 200 208
      (set_start_free (4096 + 208) natural_block_world) =
      Ret (Value 4096) w' /\ safe w'.
Proof.
  destruct (reallocate_after_allocate 0 0 4096 200 208 natural_block_world
              (set_start_free (4096 + 208) natural_block_world)
              natural_arena_honest natural_block_world_safe ltac:(lia)
              ltac:(lia) ltac:(reflexivity))
    as [(q & w' & Ha & Hs & _)|[(w' & Ha & _)|(w' & Ha & _)]];
    try (vm_compute in Ha; discriminate).
  exists w'. split; [|exact Hs]. rewrite Ha. f_equal. f_equal.
  vm_compute in Ha. injection Ha as <- _. reflexivity.
Defined.


Lemma salvage_overruns_recycled_remainder_witness :
  exists w',
    M_chunk_alloc 2 208 10 starved_remainder_world =
      Ret (start_free starved_remainder_world, 1) w' /\
    start_free w' = start_free starved_remainder_world + 208 /\
    end_free w' = start_free starved_remainder_world + 208 /\
    end_free starved_remainder_world < end_free w' /\
    free_list w' = free_list starved_remainder_world /\
    heap_size w' = heap_size starved_remainder_world.
Proof.
  apply (salvage_overruns_recycled_remainder 0 208 10 starved_remainder_world);
    [unfold ESmallObjectBytes; lia | lia | lia | reflexivity
    | unfold heap_ok; simpl; lia | unfold pool_ok; simpl; lia | discriminate
    | vm_compute; split; reflexivity | reflexivity | reflexivity].
Defined.

Lemma pool_serves_whole_blocks_witness :
  exists k w',
    M_chunk_alloc 1 512 10 ten_block_world =
      Ret (start_free ten_block_world, k) w' /\
    k = Z.min 10 (pool_bytes ten_block_world / 512) /\
    pool_bytes w' = pool_bytes ten_block_world - 512 * k /\
    (k < 10 -> pool_bytes w' < 512) /\
    end_free w' = end_free ten_block_world /\
    free_list w' = free_list ten_block_world /\
    calls w' = calls ten_block_world.
Proof.
  apply (pool_serves_whole_blocks 0 512 10 ten_block_world);
    [unfold ESmallObjectBytes; lia | lia | lia | unfold pool_ok; simpl; lia
    | vm_compute; discriminate].
Defined.
